(** * An LS-8 style register machine: the emulator of [cpu.py]

    The Python class [CPU] holds a 256-cell memory, eight registers, a
    program counter, a flags register and a stack pointer, all of them
    Python integers (unbounded), and runs a fetch-decode-execute loop.
    The development below embeds that class: Python's list indexing with
    its negative indices and its [IndexError], the [alu] method, the
    branches of [run] in the order of the source, and the console output
    of [print]. *)

From Stdlib Require Import ZArith Lia Bool String Ascii DecimalString.
From stdpp Require Import base list.

Local Open Scope Z_scope.

(** ** Opcodes

    The module-level constants of [cpu.py]; the source writes them in
    binary, given here beside each value. *)

Definition HLT  : Z := 0x01.  (* 0b00000001 *)
Definition PRN  : Z := 0x47.  (* 0b01000111 *)
Definition LDI  : Z := 0x82.  (* 0b10000010 *)
Definition MUL  : Z := 0xA2.  (* 0b10100010 *)
Definition ADD  : Z := 0xA0.  (* 0b10100000 *)
Definition PUSH : Z := 0x45.  (* 0b01000101 *)
Definition POP  : Z := 0x46.  (* 0b01000110 *)
Definition CALL : Z := 0x50.  (* 0b01010000 *)
Definition IRET : Z := 0x13.  (* 0b00010011 *)
Definition RET  : Z := 0x11.  (* 0b00010001 *)
Definition CMP  : Z := 0xA7.  (* 0b10100111 *)
Definition JMP  : Z := 0x54.  (* 0b01010100 *)
Definition JEQ  : Z := 0x55.  (* 0b01010101 *)
Definition JNE  : Z := 0x56.  (* 0b01010110 *)

(** ** Exceptions and the error monad *)

(** The two exceptions the class can raise: Python's [IndexError], from an
    index outside a list, and the [Exception("Unsupported ALU operation")]
    of [alu].  Nothing catches them: an exception ends the run, and the
    state it leaves behind is not kept. *)
Inductive exn : Type :=
  | IndexError
  | UnsupportedALU.

Inductive res (A : Type) : Type :=
  | Ok (a : A)
  | Raise (e : exn).

Arguments Ok {A} a.
Arguments Raise {A} e.

Definition bind {A B : Type} (m : res A) (k : A -> res B) : res B :=
  match m with
  | Ok a => k a
  | Raise e => Raise e
  end.

Notation "x <- m ;; k" := (bind m (fun x => k))
  (at level 100, m at next level, right associativity).

(** ** Python lists indexed by integers *)

(** [l[i]] on a list of length [n]: [0 <= i < n] is cell [i], [-n <= i < 0]
    is cell [n + i], anything else raises [IndexError]. *)
Definition py_index (n : nat) (i : Z) : res nat :=
  if (0 <=? i) && (i <? Z.of_nat n) then Ok (Z.to_nat i)
  else if (- Z.of_nat n <=? i) && (i <? 0) then Ok (Z.to_nat (Z.of_nat n + i))
  else Raise IndexError.

Definition getitem (l : list Z) (i : Z) : res Z :=
  k <- py_index (length l) i ;;
  match l !! k with
  | Some v => Ok v
  | None => Raise IndexError
  end.

Definition setitem (l : list Z) (i v : Z) : res (list Z) :=
  k <- py_index (length l) i ;;
  Ok (<[k:=v]> l).

(** ** Console output *)

(** [str(v)] for a Python integer: decimal digits, a minus sign when
    negative. *)
Definition py_str (v : Z) : string := NilZero.string_of_int (Z.to_int v).

Definition newline : string := String (ascii_of_nat 10) EmptyString.

(** What [print(v)] writes. *)
Definition print_line (v : Z) : string := (py_str v ++ newline)%string.

(** ** The machine state *)

(** The fields of a [CPU] object, and the text written to standard output
    so far. *)
Record cpu : Type := mkCPU {
  ram : list Z;
  reg : list Z;
  pc : Z;
  fl : Z;
  sp : Z;
  stdout : string
}.

Definition set_ram (m : list Z) (s : cpu) : cpu :=
  mkCPU m (reg s) (pc s) (fl s) (sp s) (stdout s).
Definition set_reg (r : list Z) (s : cpu) : cpu :=
  mkCPU (ram s) r (pc s) (fl s) (sp s) (stdout s).
Definition set_pc (v : Z) (s : cpu) : cpu :=
  mkCPU (ram s) (reg s) v (fl s) (sp s) (stdout s).
Definition set_fl (v : Z) (s : cpu) : cpu :=
  mkCPU (ram s) (reg s) (pc s) v (sp s) (stdout s).
Definition set_sp (v : Z) (s : cpu) : cpu :=
  mkCPU (ram s) (reg s) (pc s) (fl s) v (stdout s).
Definition write_stdout (t : string) (s : cpu) : cpu :=
  mkCPU (ram s) (reg s) (pc s) (fl s) (sp s) (stdout s ++ t)%string.

(** [CPU.__init__] *)
Definition CPU_init : cpu :=
  {| ram := replicate 256 0;
     reg := replicate 8 0;
     pc := 0;
     fl := 0x00;
     sp := 0xF4;
     stdout := EmptyString |}.

(** [CPU.load], from the parsed values of the program file on: each value
    is stored at the next address, starting at 0. *)
Fixpoint load_from (address : Z) (vals : list Z) (s : cpu) : res cpu :=
  match vals with
  | [] => Ok s
  | v :: rest =>
      m <- setitem (ram s) address v ;;
      load_from (address + 1) rest (set_ram m s)
  end.

Definition load (vals : list Z) (s : cpu) : res cpu := load_from 0 vals s.

(** A fresh CPU with a program loaded. *)
Definition boot (vals : list Z) : res cpu := load vals CPU_init.

(** [CPU.ram_read] and [CPU.ram_write] *)
Definition ram_read (s : cpu) (MAR : Z) : res Z := getitem (ram s) MAR.

Definition ram_write (s : cpu) (MAR MDR : Z) : res cpu :=
  m <- setitem (ram s) MAR MDR ;;
  Ok (set_ram m s).

(** Reading and writing a register, as [self.reg[i]] does. *)
Definition reg_read (s : cpu) (i : Z) : res Z := getitem (reg s) i.

Definition reg_write (s : cpu) (i v : Z) : res cpu :=
  r <- setitem (reg s) i v ;;
  Ok (set_reg r s).

(** ** The ALU *)

(** The three values [alu] assigns to [fl], literals in the source. *)
Definition FL_E : Z := 0x01.  (* 0b00000001 *)
Definition FL_L : Z := 0x04.  (* 0b00000100 *)
Definition FL_G : Z := 0x02.  (* 0b00000010 *)

(** [CPU.alu] *)
Definition alu (op reg_a reg_b : Z) (s : cpu) : res cpu :=
  if op =? ADD then
    x <- reg_read s reg_a ;;
    y <- reg_read s reg_b ;;
    reg_write s reg_a (x + y)
  else if op =? MUL then
    x <- reg_read s reg_a ;;
    y <- reg_read s reg_b ;;
    reg_write s reg_a (x * y)
  else if op =? CMP then
    x <- reg_read s reg_a ;;
    y <- reg_read s reg_b ;;
    if x =? y then Ok (set_fl FL_E s)
    else if x <? y then Ok (set_fl FL_L s)
    else if x >? y then Ok (set_fl FL_G s)
    else Ok s
  else Raise UnsupportedALU.

(** ** The fetch-decode-execute loop *)

(** One turn of the [while running] loop ends in one of three ways. *)
Inductive outcome : Type :=
  | Running (s : cpu)
  | Halted (s : cpu)
  | Raised (e : exn).

Definition continue (r : res cpu) : outcome :=
  match r with
  | Ok s => Running s
  | Raise e => Raised e
  end.

(** The three reads at the top of the loop body. *)
Definition fetch (s : cpu) : res (Z * Z * Z) :=
  IR <- ram_read s (pc s) ;;
  operand_a <- ram_read s (pc s + 1) ;;
  operand_b <- ram_read s (pc s + 2) ;;
  Ok (IR, operand_a, operand_b).

Definition exec_JEQ (a : Z) (s : cpu) : res cpu :=
  if fl s =? 0x01 then
    v <- reg_read s a ;; Ok (set_pc v s)
  else Ok (set_pc (pc s + 2) s).

Definition exec_JNE (a : Z) (s : cpu) : res cpu :=
  if negb (fl s =? 0x01) then
    v <- reg_read s a ;; Ok (set_pc v s)
  else Ok (set_pc (pc s + 2) s).

Definition exec_JMP (a : Z) (s : cpu) : res cpu :=
  v <- reg_read s a ;; Ok (set_pc v s).

Definition exec_ALU (op a b : Z) (s : cpu) : res cpu :=
  s1 <- alu op a b s ;;
  Ok (set_pc (pc s1 + 3) s1).

Definition exec_CALL (a : Z) (s : cpu) : res cpu :=
  let s1 := set_sp (sp s - 1) s in
  s2 <- ram_write s1 (sp s1) (pc s1 + 2) ;;
  v <- reg_read s2 a ;;
  Ok (set_pc v s2).

Definition exec_RET (s : cpu) : res cpu :=
  popped <- ram_read s (sp s) ;;
  let s1 := set_pc popped s in
  Ok (set_sp (sp s1 + 1) s1).

Definition exec_PUSH (a : Z) (s : cpu) : res cpu :=
  let s1 := set_sp (sp s - 1) s in
  v <- reg_read s1 a ;;
  s2 <- ram_write s1 (sp s1) v ;;
  Ok (set_pc (pc s2 + 2) s2).

Definition exec_POP (a : Z) (s : cpu) : res cpu :=
  popped <- ram_read s (sp s) ;;
  s1 <- reg_write s a popped ;;
  let s2 := set_sp (sp s1 + 1) s1 in
  Ok (set_pc (pc s2 + 2) s2).

Definition exec_LDI (a b : Z) (s : cpu) : res cpu :=
  s1 <- reg_write s a b ;;
  Ok (set_pc (pc s1 + 3) s1).

Definition exec_PRN (a : Z) (s : cpu) : res cpu :=
  v <- reg_read s a ;;
  let s1 := write_stdout (print_line v) s in
  Ok (set_pc (pc s1 + 2) s1).

(** The [if]/[elif] chain of [run], in the order of the source.  It has no
    final [else]: an instruction byte that matches no branch changes
    nothing and the loop goes round again. *)
Definition dispatch (IR operand_a operand_b : Z) (s : cpu) : outcome :=
  if IR =? HLT then Halted s
  else if IR =? JEQ then continue (exec_JEQ operand_a s)
  else if IR =? JNE then continue (exec_JNE operand_a s)
  else if IR =? JMP then continue (exec_JMP operand_a s)
  else if IR =? CMP then continue (exec_ALU CMP operand_a operand_b s)
  else if IR =? CALL then continue (exec_CALL operand_a s)
  else if IR =? RET then continue (exec_RET s)
  else if IR =? PUSH then continue (exec_PUSH operand_a s)
  else if IR =? POP then continue (exec_POP operand_a s)
  else if IR =? LDI then continue (exec_LDI operand_a operand_b s)
  else if IR =? MUL then continue (exec_ALU MUL operand_a operand_b s)
  else if IR =? ADD then continue (exec_ALU ADD operand_a operand_b s)
  else if IR =? PRN then continue (exec_PRN operand_a s)
  else Running s.

Definition step (s : cpu) : outcome :=
  match fetch s with
  | Ok (IR, operand_a, operand_b) => dispatch IR operand_a operand_b s
  | Raise e => Raised e
  end.

(** [CPU.run] for at most [n] turns of the loop: [Running s] says the loop
    is still going after [n] turns, in state [s]. *)
Fixpoint run_n (n : nat) (s : cpu) : outcome :=
  match n with
  | O => Running s
  | S k =>
      match step s with
      | Running s' => run_n k s'
      | o => o
      end
  end.

(** Load a program into a fresh CPU and run it for at most [n] turns. *)
Definition exec (n : nat) (vals : list Z) : outcome :=
  match boot vals with
  | Ok s => run_n n s
  | Raise e => Raised e
  end.

(** ** The exceptions of the loader and of the trace *)

(** [load] can also raise the [ValueError] of [int], and [trace] the
    [TypeError] of the [%] operator. *)
Inductive pyexn : Type :=
  | Cpu (e : exn)
  | ValueError
  | TypeError.

Inductive pres (A : Type) : Type :=
  | Done (a : A)
  | Throw (e : pyexn).

Arguments Done {A} a.
Arguments Throw {A} e.

Definition pbind {A B : Type} (m : pres A) (k : A -> pres B) : pres B :=
  match m with
  | Done a => k a
  | Throw e => Throw e
  end.

Definition lift {A : Type} (r : res A) : pres A :=
  match r with
  | Ok a => Done a
  | Raise e => Throw (Cpu e)
  end.

Notation "x <~ m ;; k" := (pbind m (fun x => k))
  (at level 100, m at next level, right associativity).

(** ** The loader, from the lines of the program file *)

(** The characters of a line are taken as code points below 256.  Those
    that [str.strip] removes: tab to carriage return, the four separators
    28 to 31, the space, and the two Latin-1 spaces 133 and 160. *)
Definition is_space (c : ascii) : bool :=
  let n := nat_of_ascii c in
  ((9 <=? n) && (n <=? 13) || (28 <=? n) && (n <=? 32)
   || (n =? 133) || (n =? 160))%nat.

(** [instruction.split("#")[0]]: the line up to its first [#]. *)
Fixpoint before_hash (instruction : string) : string :=
  match instruction with
  | EmptyString => EmptyString
  | String c rest =>
      if (c =? "#")%char then EmptyString else String c (before_hash rest)
  end.

Fixpoint lstrip (t : string) : string :=
  match t with
  | EmptyString => EmptyString
  | String c rest => if is_space c then lstrip rest else t
  end.

Fixpoint rstrip (t : string) : string :=
  match t with
  | EmptyString => EmptyString
  | String c rest =>
      match rstrip rest with
      | EmptyString => if is_space c then EmptyString else String c EmptyString
      | kept => String c kept
      end
  end.

(** [str.strip()] *)
Definition strip (t : string) : string := rstrip (lstrip t).

Definition bit_of (c : ascii) : option Z :=
  if (c =? "0")%char then Some 0
  else if (c =? "1")%char then Some 1
  else None.

(** The digits of a base-2 literal: [0] and [1], with single underscores
    between them; [prev] says the character before was an underscore. *)
Fixpoint int2_digits (prev : bool) (acc : Z) (t : string) : option Z :=
  match t with
  | EmptyString => if prev then None else Some acc
  | String c rest =>
      if (c =? "_")%char then
        if prev then None else int2_digits true acc rest
      else
        match bit_of c with
        | Some d => int2_digits false (2 * acc + d) rest
        | None => None
        end
  end.

Definition int2_body (t : string) : option Z :=
  match t with
  | EmptyString => None
  | String c _ => if (c =? "_")%char then None else int2_digits false 0 t
  end.

Definition int2_sign (val : string) : bool * string :=
  match val with
  | String c rest =>
      if (c =? "+")%char then (false, rest)
      else if (c =? "-")%char then (true, rest)
      else (false, val)
  | EmptyString => (false, val)
  end.

Definition int2_prefix (t : string) : string :=
  match t with
  | String c0 (String c1 rest) =>
      if (c0 =? "0")%char && ((c1 =? "b")%char || (c1 =? "B")%char) then
        match rest with
        | String c2 rest' => if (c2 =? "_")%char then rest' else rest
        | EmptyString => rest
        end
      else t
  | _ => t
  end.

(** [int(val, 2)] for a text without white space at either end, as
    [strip] leaves it: an optional sign, an optional [0b] or [0B] that one
    underscore may follow, then the digits.  [None] is [ValueError]. *)
Definition int2 (val : string) : option Z :=
  let (negative, t) := int2_sign val in
  match int2_body (int2_prefix t) with
  | Some v => Some (if negative then - v else v)
  | None => None
  end.

(** What [load] does with one line: nothing, or a value to store. *)
Definition parse_line (instruction : string) : pres (option Z) :=
  let val := strip (before_hash instruction) in
  match val with
  | EmptyString => Done None
  | _ =>
      match int2 val with
      | Some v => Done (Some v)
      | None => Throw ValueError
      end
  end.

(** [CPU.load], from the lines the open file yields (opening the file named
    by [sys.argv[1]] is left out). *)
Fixpoint load_lines (address : Z) (program : list string) (s : cpu)
  : pres cpu :=
  match program with
  | [] => Done s
  | instruction :: rest =>
      v <~ parse_line instruction ;;
      match v with
      | None => load_lines address rest s
      | Some v =>
          m <~ lift (setitem (ram s) address v) ;;
          load_lines (address + 1) rest (set_ram m s)
      end
  end.

Definition load_program (program : list string) (s : cpu) : pres cpu :=
  load_lines 0 program s.

(** ** The debugging trace *)

(** A format string of [trace]: literal text and [%02X] conversions. *)
Inductive piece : Type :=
  | Lit (t : string)
  | Conv02X.

Definition hex_digit (d : Z) : ascii :=
  match d with
  | 0 => "0" | 1 => "1" | 2 => "2" | 3 => "3" | 4 => "4" | 5 => "5"
  | 6 => "6" | 7 => "7" | 8 => "8" | 9 => "9" | 10 => "A" | 11 => "B"
  | 12 => "C" | 13 => "D" | 14 => "E" | _ => "F"
  end%char.

Fixpoint hex_digits (fuel : nat) (n : Z) (acc : string) : string :=
  match fuel with
  | O => acc
  | S fuel' =>
      let acc' := String (hex_digit (n mod 16)) acc in
      if n <? 16 then acc' else hex_digits fuel' (n / 16) acc'
  end.

(** Upper-case hexadecimal digits of a natural number. *)
Definition hex (n : Z) : string :=
  hex_digits (S (Z.to_nat (Z.log2 n))) n EmptyString.

(** ["%02X" % v]: at least two characters, zero-padded; a negative number
    has its sign in front. *)
Definition format_02X (v : Z) : string :=
  if v <? 0 then String "-"%char (hex (- v))
  else if v <? 16 then String "0"%char (hex v)
  else hex v.

(** [format % args]: each conversion takes the next argument; too few
    arguments, or arguments left over, are a [TypeError]. *)
Fixpoint py_format (format : list piece) (args : list Z) : pres string :=
  match format with
  | [] =>
      match args with
      | [] => Done EmptyString
      | _ :: _ => Throw TypeError
      end
  | Lit t :: rest =>
      r <~ py_format rest args ;;
      Done (t ++ r)%string
  | Conv02X :: rest =>
      match args with
      | [] => Throw TypeError
      | v :: args' =>
          r <~ py_format rest args' ;;
          Done (format_02X v ++ r)%string
      end
  end.

(** The format of the first [print] of [trace]: four conversions. *)
Definition trace_format : list piece :=
  [Lit "TRACE: "; Conv02X; Lit " | "; Conv02X; Lit " "; Conv02X;
   Lit " "; Conv02X; Lit " |"].

(** The loop [for i in range(8)] of [trace]. *)
Fixpoint trace_registers (indices : list Z) (s : cpu) : pres cpu :=
  match indices with
  | [] => Done s
  | i :: rest =>
      v <~ lift (reg_read s i) ;;
      t <~ py_format [Lit " "; Conv02X] [v] ;;
      trace_registers rest (write_stdout t s)
  end.

(** [CPU.trace]: the argument tuple has five members, [pc], [fl] and the
    three bytes at [pc]. *)
Definition trace (s : cpu) : pres cpu :=
  b0 <~ lift (ram_read s (pc s)) ;;
  b1 <~ lift (ram_read s (pc s + 1)) ;;
  b2 <~ lift (ram_read s (pc s + 2)) ;;
  t <~ py_format trace_format [pc s; fl s; b0; b1; b2] ;;
  s1 <~ trace_registers [0; 1; 2; 3; 4; 5; 6; 7] (write_stdout t s) ;;
  Done (write_stdout newline s1).

(** * Vocabulary of the properties *)

(** What a run has written to standard output when it halts. *)
Definition emitted (o : outcome) : option string :=
  match o with
  | Halted s => Some (stdout s)
  | Running s => None
  | Raised e => None
  end.

(** [LDI R0,x; LDI R1,y; ADD R0,R1; PRN R0; HLT], and the same with [MUL]. *)
Definition add_program (x y : Z) : list Z :=
  [LDI; 0; x; LDI; 1; y; ADD; 0; 1; PRN; 0; HLT].

Definition mul_program (x y : Z) : list Z :=
  [LDI; 0; x; LDI; 1; y; MUL; 0; 1; PRN; 0; HLT].

(** The cell an in-range index names. *)
Definition cell_of (n : nat) (i : Z) : nat :=
  if i <? 0 then Z.to_nat (Z.of_nat n + i) else Z.to_nat i.

(** Item assignment never changes the length of a Python list, so the two
    lists keep the sizes [__init__] gave them. *)
Definition wf (s : cpu) : Prop :=
  length (ram s) = 256%nat /\ length (reg s) = 8%nat.

(** The opcodes [run] has a branch for. *)
Definition defined_opcode (IR : Z) : bool :=
  (IR =? HLT) || (IR =? JEQ) || (IR =? JNE) || (IR =? JMP) || (IR =? CMP)
  || (IR =? CALL) || (IR =? RET) || (IR =? PUSH) || (IR =? POP)
  || (IR =? LDI) || (IR =? MUL) || (IR =? ADD) || (IR =? PRN).

(** The flags a compare leaves, by the three tests of [alu] (on integers the
    third never falls through). *)
Definition compare_flags (x y : Z) : Z :=
  if x =? y then FL_E else if x <? y then FL_L else FL_G.

(** The instructions that use the first operand byte as a register number
    in a state with flags [f], and those that use the second one. *)
Definition selects_operand_a (IR f : Z) : bool :=
  (IR =? JMP) || (IR =? CMP) || (IR =? CALL) || (IR =? PUSH) || (IR =? POP)
  || (IR =? LDI) || (IR =? MUL) || (IR =? ADD) || (IR =? PRN)
  || ((IR =? JEQ) && (f =? 1)) || ((IR =? JNE) && negb (f =? 1)).

Definition selects_operand_b (IR : Z) : bool :=
  (IR =? CMP) || (IR =? MUL) || (IR =? ADD).

(** A state in which a compare instruction is about to run on two
    different values. *)
Definition cmp_state : cpu :=
  mkCPU ([CMP; 0; 1] ++ replicate 253 0) [3; 5; 0; 0; 0; 0; 0; 0] 0 FL_G 0xF4
        EmptyString.

(** The state in which [add_program] halts: the sum in register 0, the
    program counter on the [HLT], one line printed. *)
Definition add_program_final (x y : Z) : cpu :=
  mkCPU (add_program x y ++ replicate 244 0) [x + y; y; 0; 0; 0; 0; 0; 0]
        11 0 0xF4 (print_line (x + y)).

Definition mul_program_final (x y : Z) : cpu :=
  mkCPU (mul_program x y ++ replicate 244 0) [x * y; y; 0; 0; 0; 0; 0; 0]
        11 0 0xF4 (print_line (x * y)).

(** Whether an instruction stores on the stack, or takes from it. *)
Definition pushes (IR : Z) : bool := (IR =? PUSH) || (IR =? CALL).
Definition pops (IR : Z) : bool := (IR =? POP) || (IR =? RET).

(** What an instruction adds to [sp]. *)
Definition stack_effect (IR : Z) : Z :=
  if pushes IR then -1 else if pops IR then 1 else 0.

(** The instruction bytes executed by the first [n] turns of the loop, in
    order (the turn that halts or raises is not listed). *)
Fixpoint ops (n : nat) (s : cpu) : list Z :=
  match n with
  | O => []
  | S k =>
      match fetch s, step s with
      | Ok (IR, _, _), Running s' => IR :: ops k s'
      | _, _ => []
      end
  end.

(** A sequence of instructions is balanced from depth [d] when every take
    from the stack finds something stored by the sequence or by the [d]
    stores before it, and nothing is left at the end. *)
Fixpoint balanced_from (d : nat) (l : list Z) : bool :=
  match l with
  | [] => Nat.eqb d 0
  | IR :: rest =>
      if pushes IR then balanced_from (S d) rest
      else if pops IR then
        match d with
        | O => false
        | S d' => balanced_from d' rest
        end
      else balanced_from d rest
  end.

Definition balanced (l : list Z) : bool := balanced_from 0 l.

(** The states an execution goes through: those the loop reaches from a
    freshly constructed CPU with some program loaded. *)
Definition reachable (s : cpu) : Prop :=
  exists (vals : list Z) (s0 : cpu) (n : nat),
    boot vals = Ok s0 /\ run_n n s0 = Running s.

(** The values the flags register takes: none of the bits, or one of them. *)
Definition flags_value (f : Z) : Prop :=
  f = 0 \/ f = FL_E \/ f = FL_L \/ f = FL_G.

(** The Equal flag is bit 0 of the flags register. *)
Definition equal_flag (f : Z) : bool := Z.testbit f 0.

(** A program that compares two registers and then branches. *)
Definition branch_program : list Z :=
  [LDI; 0; 7; LDI; 2; 9; CMP; 0; 1; JEQ; 2; HLT].

Definition branch_state : cpu :=
  mkCPU (branch_program ++ replicate 244 0) [7; 0; 9; 0; 0; 0; 0; 0] 6 0 0xF4
        EmptyString.

(** A program that jumps over a [PRN] with [JNE], never having compared. *)
Definition jne_program : list Z :=
  [LDI; 0; 8; JNE; 0; PRN; 0; HLT; HLT].

Definition jne_state : cpu :=
  mkCPU (jne_program ++ replicate 247 0) [8; 0; 0; 0; 0; 0; 0; 0] 3 0 0xF4
        EmptyString.

(** A program that pushes register 0 and pops it into register 1. *)
Definition push_pop_program : list Z :=
  [LDI; 0; 42; PUSH; 0; POP; 1; HLT].


(** The deepest nesting a sequence of instructions reaches, starting from
    depth [d]. *)
Fixpoint peak (d : nat) (l : list Z) : nat :=
  match l with
  | [] => d
  | IR :: rest =>
      Nat.max d
        (peak (if pushes IR then S d else if pops IR then Nat.pred d else d) rest)
  end.

(** A program that calls a subroutine which pushes, pops and returns. *)
Definition call_program : list Z :=
  [LDI; 0; 9; CALL; 0; HLT; 0; 0; 0; PUSH; 0; POP; 1; RET].

Definition call_state : cpu :=
  mkCPU (call_program ++ replicate 242 0) [9; 0; 0; 0; 0; 0; 0; 0] 3 0 0xF4
        EmptyString.

(** A runaway recursion.  With 17 in register 6, 6 in register 4 and 67 in
    register 3, the [CALL R6] at 67 stores 69 and enters the code at 17,
    which pushes register 4 and jumps back to the [CALL]; nothing returns.
    The stack grows down from cell 243, a 69 at an odd cell and a 6 at the
    even cell below it each round, and those pairs read [PUSH R6] at the
    odd addresses from 69 up.  When the stack reaches the program, cell 68
    receives 6 (the [CALL] is still [CALL R6]) and cell 67 receives 69:
    the [CALL] has become [PUSH R6], and control runs on through the
    [PUSH R6] at 69, 71, ..., each pushing 17, the opcode of [RET].  The
    stack pointer goes below 0, where index -1 is cell 255, and at index
    -19 a 17 lands on cell 237, which held the return address of the
    [CALL] of the 14th turn.  At 237 the program counter meets the 17s and
    the machine starts returning; after two more rounds of pushes from 69,
    the [RET]s at 17, 6 and 69 take the stack back up to cell 237. *)
Definition wrap_program : list Z :=
  [LDI; 6; 17; LDI; 4; 6; LDI; 3; 67; JMP; 3] ++ replicate 6 0
  ++ [PUSH; 4; JMP; 3] ++ replicate 46 0 ++ [CALL; 6].

(** The state a program is in after [n] turns of the loop. *)
Definition state_after (n : nat) (vals : list Z) : cpu :=
  match exec n vals with
  | Running s => s
  | Halted s => s
  | Raised _ => CPU_init
  end.

(** ** Vocabulary of the further properties *)

(** The instructions that assign to a register. *)
Definition writes_register (IR : Z) : bool :=
  (IR =? LDI) || (IR =? POP) || (IR =? ADD) || (IR =? MUL).

(** Nothing negative in the memory, the registers or the program counter. *)
Definition nonneg_state (s : cpu) : Prop :=
  Forall (Z.le 0) (ram s) /\ Forall (Z.le 0) (reg s) /\ 0 <= pc s.

(** A full memory image that jumps to its last cell, where a [HLT] sits. *)
Definition edge_program : list Z :=
  [LDI; 0; 255; JMP; 0] ++ replicate 250 0 ++ [HLT].

(** A state about to pop into register 1 what a push of 42 left. *)
Definition pop_state : cpu :=
  mkCPU ([POP; 1; PUSH; 1; HLT] ++ replicate 238 0 ++ [42] ++ replicate 12 0)
        [42; 0; 0; 0; 0; 0; 0; 0] 0 0 0xF3 EmptyString.

(** An index a Python list of length [n] accepts. *)
Definition valid_index (n i : Z) : bool := (- n <=? i) && (i <? n).

(** The index at which an instruction uses the memory as a stack. *)
Definition stack_index (IR : Z) (s : cpu) : option Z :=
  if pushes IR then Some (sp s - 1)
  else if pops IR then Some (sp s)
  else None.

(** The register numbers and the stack index an instruction uses are all
    valid. *)
Definition turn_is_safe (IR a b : Z) (s : cpu) : bool :=
  implb (selects_operand_a IR (fl s)) (valid_index 8 a)
  && implb (selects_operand_b IR) (valid_index 8 b)
  && match stack_index IR s with
     | Some i => valid_index 256 i
     | None => true
     end.

(** The instructions that assign a computed address to the program counter,
    in a state with flags [f]. *)
Definition jumps (IR f : Z) : bool :=
  (IR =? JMP) || (IR =? CALL) || (IR =? RET)
  || ((IR =? JEQ) && (f =? 1)) || ((IR =? JNE) && negb (f =? 1)).

(** The number of operands an instruction byte announces, in its two high
    bits. *)
Definition operand_count (IR : Z) : Z := Z.shiftr IR 6.

(** ** Vocabulary of the loader's properties *)

(** The values of the lines of a program file that hold one, in order,
    when every line can be read. *)
Fixpoint parse_all (program : list string) : pres (list Z) :=
  match program with
  | [] => Done []
  | instruction :: rest =>
      v <~ parse_line instruction ;;
      vs <~ parse_all rest ;;
      Done (match v with
            | Some x => x :: vs
            | None => vs
            end)
  end.

(** Text made of white space only. *)
Fixpoint all_space (t : string) : bool :=
  match t with
  | EmptyString => true
  | String c rest => is_space c && all_space rest
  end.

(** A sequence of binary digits as text, and the number it writes in base
    2, most significant digit first. *)
Fixpoint bits_string (bs : list bool) : string :=
  match bs with
  | [] => EmptyString
  | b :: rest => String (if b then "1" else "0")%char (bits_string rest)
  end.

Fixpoint bits_value (acc : Z) (bs : list bool) : Z :=
  match bs with
  | [] => acc
  | b :: rest => bits_value (2 * acc + (if b then 1 else 0)) rest
  end.

(** Whether some character of a text satisfies a test. *)
Fixpoint has_char (p : ascii -> bool) (t : string) : bool :=
  match t with
  | EmptyString => false
  | String c rest => p c || has_char p rest
  end.

(** The characters a base-2 literal can be made of. *)
Definition int2_char (c : ascii) : bool :=
  ((c =? "0") || (c =? "1") || (c =? "_") || (c =? "+") || (c =? "-")
   || (c =? "b") || (c =? "B"))%char.

(** The lines of a program file that prints 8: a comment, a blank line and
    six instruction bytes, each line with its line end. *)
Definition print8_file : list string :=
  map (fun l => (l ++ newline)%string)
    ["# print8.ls8"; EmptyString;
     "10000010 # LDI R0,8"; "00000000"; "00001000";
     "01000111 # PRN R0"; "00000000";
     "00000001 # HLT"]%string.

Definition print8_values : list Z := [LDI; 0; 8; PRN; 0; HLT].

(** * Properties *)

(** ** Python list indexing *)

Lemma py_index_nonneg (n : nat) (i : Z) :
  0 <= i < Z.of_nat n -> py_index n i = Ok (Z.to_nat i).
Proof.
  intros Hi. unfold py_index.
  destruct (Z.leb_spec 0 i), (Z.ltb_spec i (Z.of_nat n)); simpl; try lia.
  reflexivity.
Qed.

Lemma py_index_negative (n : nat) (i : Z) :
  - Z.of_nat n <= i < 0 -> py_index n i = Ok (Z.to_nat (Z.of_nat n + i)).
Proof.
  intros Hi. unfold py_index.
  destruct (Z.leb_spec 0 i); simpl; try lia.
  destruct (Z.leb_spec (- Z.of_nat n) i), (Z.ltb_spec i 0); simpl; try lia.
  reflexivity.
Qed.

Lemma py_index_outside (n : nat) (i : Z) :
  i < - Z.of_nat n \/ Z.of_nat n <= i -> py_index n i = Raise IndexError.
Proof.
  intros Hi. unfold py_index.
  destruct (Z.leb_spec 0 i), (Z.ltb_spec i (Z.of_nat n)); simpl; try lia;
  destruct (Z.leb_spec (- Z.of_nat n) i), (Z.ltb_spec i 0); simpl; try lia;
  reflexivity.
Qed.

Lemma py_index_inside (n : nat) (i : Z) :
  - Z.of_nat n <= i < Z.of_nat n ->
  py_index n i = Ok (cell_of n i) /\ (cell_of n i < n)%nat.
Proof.
  intros Hi. unfold cell_of. destruct (Z.ltb_spec i 0).
  - rewrite py_index_negative by lia. split; [reflexivity | lia].
  - rewrite py_index_nonneg by lia. split; [reflexivity | lia].
Qed.

Lemma py_index_Ok_inv (n : nat) (i : Z) (k : nat) :
  py_index n i = Ok k ->
  - Z.of_nat n <= i < Z.of_nat n /\ k = cell_of n i.
Proof.
  intros H.
  destruct (Z_lt_le_dec i (- Z.of_nat n)) as [Hlo | Hlo].
  { rewrite py_index_outside in H by lia. discriminate. }
  destruct (Z_lt_le_dec i (Z.of_nat n)) as [Hhi | Hhi].
  - destruct (py_index_inside n i) as [E _]; [lia |].
    rewrite E in H. injection H as <-. split; [lia | reflexivity].
  - rewrite py_index_outside in H by lia. discriminate.
Qed.

Lemma getitem_inside (l : list Z) (i : Z) :
  - Z.of_nat (length l) <= i < Z.of_nat (length l) ->
  exists v, getitem l i = Ok v /\ l !! cell_of (length l) i = Some v.
Proof.
  intros Hi. destruct (py_index_inside _ _ Hi) as [E Hlt].
  unfold getitem. rewrite E. simpl.
  destruct (lookup_lt_is_Some_2 l _ Hlt) as [v Hv].
  exists v. rewrite Hv. split; reflexivity.
Qed.

Lemma getitem_outside (l : list Z) (i : Z) :
  i < - Z.of_nat (length l) \/ Z.of_nat (length l) <= i ->
  getitem l i = Raise IndexError.
Proof.
  intros Hi. unfold getitem. rewrite py_index_outside by exact Hi. reflexivity.
Qed.

Lemma getitem_Ok_inv (l : list Z) (i v : Z) :
  getitem l i = Ok v ->
  - Z.of_nat (length l) <= i < Z.of_nat (length l) /\
  l !! cell_of (length l) i = Some v.
Proof.
  unfold getitem. intros H.
  destruct (py_index (length l) i) as [k | e] eqn:E; simpl in H; [| discriminate].
  apply py_index_Ok_inv in E as [Hi ->].
  split; [exact Hi |].
  destruct (l !! cell_of (length l) i); [congruence | discriminate].
Qed.

Lemma getitem_raises_IndexError (l : list Z) (i : Z) (e : exn) :
  getitem l i = Raise e -> e = IndexError.
Proof.
  unfold getitem. unfold py_index.
  repeat match goal with
         | |- context [if ?b then _ else _] => destruct b; simpl
         | |- context [match ?o with Some _ => _ | None => _ end] => destruct o
         end; congruence.
Qed.

Lemma setitem_inside (l : list Z) (i v : Z) :
  - Z.of_nat (length l) <= i < Z.of_nat (length l) ->
  setitem l i v = Ok (<[cell_of (length l) i := v]> l).
Proof.
  intros Hi. destruct (py_index_inside _ _ Hi) as [E _].
  unfold setitem. rewrite E. reflexivity.
Qed.

Lemma setitem_outside (l : list Z) (i v : Z) :
  i < - Z.of_nat (length l) \/ Z.of_nat (length l) <= i ->
  setitem l i v = Raise IndexError.
Proof.
  intros Hi. unfold setitem. rewrite py_index_outside by exact Hi. reflexivity.
Qed.

Lemma setitem_Ok_inv (l : list Z) (i v : Z) (l' : list Z) :
  setitem l i v = Ok l' ->
  - Z.of_nat (length l) <= i < Z.of_nat (length l) /\
  l' = <[cell_of (length l) i := v]> l.
Proof.
  unfold setitem. intros H.
  destruct (py_index (length l) i) as [k | e] eqn:E; simpl in H; [| discriminate].
  apply py_index_Ok_inv in E as [Hi ->].
  split; [exact Hi | congruence].
Qed.

Lemma setitem_raises_IndexError (l : list Z) (i v : Z) (e : exn) :
  setitem l i v = Raise e -> e = IndexError.
Proof.
  unfold setitem, py_index.
  repeat match goal with
         | |- context [if ?b then _ else _] => destruct b; simpl
         end; congruence.
Qed.

Lemma setitem_length (l : list Z) (i v : Z) (l' : list Z) :
  setitem l i v = Ok l' -> length l' = length l.
Proof.
  intros H. apply setitem_Ok_inv in H as [_ ->]. apply length_insert.
Qed.

(** Reading back the cell just written. *)
Lemma getitem_setitem_same (l : list Z) (i v : Z) (l' : list Z) :
  setitem l i v = Ok l' -> getitem l' i = Ok v.
Proof.
  intros H. pose proof (setitem_length _ _ _ _ H) as Hlen.
  apply setitem_Ok_inv in H as [Hi ->].
  destruct (py_index_inside _ _ Hi) as [E Hlt].
  unfold getitem. rewrite length_insert, E. simpl.
  rewrite list_lookup_insert_eq by exact Hlt. reflexivity.
Qed.

(** A write leaves every other cell as it was. *)
Lemma getitem_setitem_other (l : list Z) (i j v : Z) (l' : list Z) :
  setitem l i v = Ok l' ->
  cell_of (length l) i <> cell_of (length l) j ->
  getitem l' j = getitem l j.
Proof.
  intros H Hne. apply setitem_Ok_inv in H as [Hi ->].
  unfold getitem. rewrite length_insert.
  destruct (py_index (length l) j) as [k | e] eqn:E; simpl; [| reflexivity].
  apply py_index_Ok_inv in E as [_ ->].
  rewrite list_lookup_insert_ne by exact Hne. reflexivity.
Qed.

(** ** Shape of the state *)

Lemma CPU_init_wf : wf CPU_init.
Proof. split; reflexivity. Qed.

Lemma ram_write_wf (s : cpu) (a v : Z) (s' : cpu) :
  wf s -> ram_write s a v = Ok s' -> wf s'.
Proof.
  intros [Hm Hr] H. unfold ram_write in H.
  destruct (setitem (ram s) a v) as [m |] eqn:E; simpl in H; [| discriminate].
  injection H as <-. apply setitem_length in E.
  split; simpl; congruence.
Qed.

Lemma reg_write_wf (s : cpu) (i v : Z) (s' : cpu) :
  wf s -> reg_write s i v = Ok s' -> wf s'.
Proof.
  intros [Hm Hr] H. unfold reg_write in H.
  destruct (setitem (reg s) i v) as [r |] eqn:E; simpl in H; [| discriminate].
  injection H as <-. apply setitem_length in E.
  split; simpl; congruence.
Qed.

Lemma load_from_wf (vals : list Z) :
  forall (address : Z) (s s' : cpu),
    wf s -> load_from address vals s = Ok s' -> wf s'.
Proof.
  induction vals as [| v rest IH]; simpl; intros address s s' Hwf H.
  - congruence.
  - destruct (setitem (ram s) address v) as [m |] eqn:E; simpl in H; [| discriminate].
    apply (IH _ _ _ (ram_write_wf s address v _ Hwf
                       ltac:(unfold ram_write; rewrite E; reflexivity)) H).
Qed.

Lemma boot_wf (vals : list Z) (s : cpu) : boot vals = Ok s -> wf s.
Proof. apply load_from_wf, CPU_init_wf. Qed.

(** Case analysis on the outcome of a monadic step in a hypothesis. *)
Ltac bind_inv H :=
  match type of H with
  | bind ?m _ = Ok _ =>
      let E := fresh "E" in
      destruct m eqn:E; simpl in H; [| discriminate H]
  end.

Lemma alu_shape (op a b : Z) (s s' : cpu) :
  alu op a b s = Ok s' ->
  ram s' = ram s /\ length (reg s') = length (reg s) /\
  pc s' = pc s /\ sp s' = sp s /\ stdout s' = stdout s.
Proof.
  unfold alu, reg_read, reg_write. intros H.
  destruct (op =? ADD); [| destruct (op =? MUL); [| destruct (op =? CMP)]];
    try discriminate; do 2 bind_inv H.
  1,2: bind_inv H; injection H as <-; simpl;
       match goal with E : setitem _ _ _ = Ok _ |- _ => apply setitem_length in E end;
       auto.
  repeat match type of H with
         | (if ?c then _ else _) = _ => destruct c
         end; injection H as <-; simpl; auto.
Qed.

Lemma step_wf (s s' : cpu) : wf s -> step s = Running s' -> wf s'.
Proof.
  intros Hwf. unfold step.
  destruct (fetch s) as [[[IR a] b] |]; [| discriminate].
  unfold dispatch.
  repeat match goal with
         | |- (if ?c then _ else _) = _ -> _ => destruct c
         end;
    try discriminate;
    try (intros H; injection H as <-; exact Hwf);
    unfold continue;
    match goal with
    | |- match ?m with Ok _ => _ | Raise _ => _ end = _ -> _ =>
        destruct m as [t |] eqn:Ex; [| discriminate]
    end;
    intros H; injection H as <-; destruct Hwf as [Hm Hr].
  - (* JEQ *)
    unfold exec_JEQ, reg_read in Ex. destruct (fl s =? 1).
    + bind_inv Ex. injection Ex as <-. split; assumption.
    + injection Ex as <-. split; assumption.
  - (* JNE *)
    unfold exec_JNE, reg_read in Ex. destruct (negb (fl s =? 1)).
    + bind_inv Ex. injection Ex as <-. split; assumption.
    + injection Ex as <-. split; assumption.
  - (* JMP *)
    unfold exec_JMP, reg_read in Ex. bind_inv Ex. injection Ex as <-.
    split; assumption.
  - (* CMP *)
    unfold exec_ALU in Ex. bind_inv Ex. injection Ex as <-.
    apply alu_shape in E as (Em & Er & _). split; simpl; congruence.
  - (* CALL *)
    unfold exec_CALL in Ex. bind_inv Ex. unfold reg_read in Ex. bind_inv Ex.
    injection Ex as <-. apply ram_write_wf in E; [exact E | split; assumption].
  - (* RET *)
    unfold exec_RET, ram_read in Ex. bind_inv Ex. injection Ex as <-.
    split; assumption.
  - (* PUSH *)
    unfold exec_PUSH, reg_read in Ex. bind_inv Ex. bind_inv Ex.
    injection Ex as <-. apply ram_write_wf in E0; [exact E0 | split; assumption].
  - (* POP *)
    unfold exec_POP, ram_read in Ex. bind_inv Ex. bind_inv Ex.
    injection Ex as <-. apply reg_write_wf in E0; [exact E0 | split; assumption].
  - (* LDI *)
    unfold exec_LDI in Ex. bind_inv Ex. injection Ex as <-.
    apply reg_write_wf in E; [exact E | split; assumption].
  - (* MUL *)
    unfold exec_ALU in Ex. bind_inv Ex. injection Ex as <-.
    apply alu_shape in E as (Em & Er & _). split; simpl; congruence.
  - (* ADD *)
    unfold exec_ALU in Ex. bind_inv Ex. injection Ex as <-.
    apply alu_shape in E as (Em & Er & _). split; simpl; congruence.
  - (* PRN *)
    unfold exec_PRN, reg_read in Ex. bind_inv Ex. injection Ex as <-.
    split; assumption.
Qed.

Lemma run_n_wf (n : nat) :
  forall s s' : cpu, wf s -> run_n n s = Running s' -> wf s'.
Proof.
  induction n as [| n IH]; simpl; intros s s' Hwf H.
  - injection H as <-. exact Hwf.
  - destruct (step s) as [t | t | e] eqn:E; try discriminate.
    exact (IH _ _ (step_wf _ _ Hwf E) H).
Qed.

(** ** What one turn of the loop does *)

Lemma continue_Running (r : res cpu) (s' : cpu) :
  continue r = Running s' -> r = Ok s'.
Proof. destruct r; simpl; congruence. Qed.

(** The branch taken by a turn that keeps the loop running. *)
Lemma dispatch_Running (IR a b : Z) (s s' : cpu) :
  dispatch IR a b s = Running s' ->
    (IR = JEQ /\ exec_JEQ a s = Ok s')
 \/ (IR = JNE /\ exec_JNE a s = Ok s')
 \/ (IR = JMP /\ exec_JMP a s = Ok s')
 \/ (IR = CMP /\ exec_ALU CMP a b s = Ok s')
 \/ (IR = CALL /\ exec_CALL a s = Ok s')
 \/ (IR = RET /\ exec_RET s = Ok s')
 \/ (IR = PUSH /\ exec_PUSH a s = Ok s')
 \/ (IR = POP /\ exec_POP a s = Ok s')
 \/ (IR = LDI /\ exec_LDI a b s = Ok s')
 \/ (IR = MUL /\ exec_ALU MUL a b s = Ok s')
 \/ (IR = ADD /\ exec_ALU ADD a b s = Ok s')
 \/ (IR = PRN /\ exec_PRN a s = Ok s')
 \/ (defined_opcode IR = false /\ s' = s).
Proof.
  unfold dispatch, defined_opcode.
  repeat match goal with
         | |- (if ?x =? ?y then _ else _) = _ -> _ =>
             destruct (Z.eqb_spec x y) as [-> | ?]
         end;
    try discriminate;
    intros H; try apply continue_Running in H; simpl; tauto || idtac.
  injection H as <-.
  do 12 right. split; [| reflexivity].
  repeat match goal with
         | Hne : ?x <> ?y |- _ => apply Z.eqb_neq in Hne; rewrite Hne; clear Hne
         end.
  reflexivity.
Qed.

Lemma step_Running (s s' : cpu) :
  step s = Running s' ->
  exists IR a b, fetch s = Ok (IR, a, b) /\ dispatch IR a b s = Running s'.
Proof.
  unfold step. destruct (fetch s) as [[[IR a] b] |]; [| discriminate].
  intros H. exists IR, a, b. split; [reflexivity | exact H].
Qed.

(** Each branch, as the state it leaves. *)

Lemma exec_JEQ_Ok (a : Z) (s s' : cpu) :
  exec_JEQ a s = Ok s' ->
  exists v, s' = set_pc v s /\
    (if fl s =? 1 then reg_read s a = Ok v else v = pc s + 2).
Proof.
  unfold exec_JEQ. destruct (fl s =? 1); intros H.
  - bind_inv H. injection H as <-. eauto.
  - injection H as <-. eauto.
Qed.

Lemma exec_JNE_Ok (a : Z) (s s' : cpu) :
  exec_JNE a s = Ok s' ->
  exists v, s' = set_pc v s /\
    (if fl s =? 1 then v = pc s + 2 else reg_read s a = Ok v).
Proof.
  unfold exec_JNE. destruct (fl s =? 1); simpl; intros H.
  - injection H as <-. eauto.
  - bind_inv H. injection H as <-. eauto.
Qed.

Lemma exec_JMP_Ok (a : Z) (s s' : cpu) :
  exec_JMP a s = Ok s' ->
  exists v, reg_read s a = Ok v /\ s' = set_pc v s.
Proof.
  unfold exec_JMP. intros H. bind_inv H. injection H as <-. eauto.
Qed.

Lemma exec_CALL_Ok (a : Z) (s s' : cpu) :
  exec_CALL a s = Ok s' ->
  exists m v,
    setitem (ram s) (sp s - 1) (pc s + 2) = Ok m /\
    reg_read s a = Ok v /\
    s' = mkCPU m (reg s) v (fl s) (sp s - 1) (stdout s).
Proof.
  unfold exec_CALL, ram_write, reg_read. simpl. intros H.
  bind_inv H. bind_inv E. injection E as <-. simpl in H.
  bind_inv H. injection H as <-. eauto.
Qed.

Lemma exec_RET_Ok (s s' : cpu) :
  exec_RET s = Ok s' ->
  exists popped,
    ram_read s (sp s) = Ok popped /\
    s' = mkCPU (ram s) (reg s) popped (fl s) (sp s + 1) (stdout s).
Proof.
  unfold exec_RET. intros H. bind_inv H. injection H as <-. eauto.
Qed.

Lemma exec_PUSH_Ok (a : Z) (s s' : cpu) :
  exec_PUSH a s = Ok s' ->
  exists v m,
    reg_read s a = Ok v /\
    setitem (ram s) (sp s - 1) v = Ok m /\
    s' = mkCPU m (reg s) (pc s + 2) (fl s) (sp s - 1) (stdout s).
Proof.
  unfold exec_PUSH, ram_write, reg_read. simpl. intros H.
  bind_inv H. bind_inv H. bind_inv E0. injection E0 as <-.
  injection H as <-. eauto.
Qed.

Lemma exec_POP_Ok (a : Z) (s s' : cpu) :
  exec_POP a s = Ok s' ->
  exists popped r,
    ram_read s (sp s) = Ok popped /\
    setitem (reg s) a popped = Ok r /\
    s' = mkCPU (ram s) r (pc s + 2) (fl s) (sp s + 1) (stdout s).
Proof.
  unfold exec_POP, reg_write. intros H.
  bind_inv H. bind_inv H. bind_inv E0. injection E0 as <-.
  injection H as <-. eauto.
Qed.

Lemma exec_LDI_Ok (a b : Z) (s s' : cpu) :
  exec_LDI a b s = Ok s' ->
  exists r,
    setitem (reg s) a b = Ok r /\
    s' = mkCPU (ram s) r (pc s + 3) (fl s) (sp s) (stdout s).
Proof.
  unfold exec_LDI, reg_write. intros H.
  bind_inv H. bind_inv E. injection E as <-. injection H as <-. eauto.
Qed.

Lemma exec_PRN_Ok (a : Z) (s s' : cpu) :
  exec_PRN a s = Ok s' ->
  exists v,
    reg_read s a = Ok v /\
    s' = mkCPU (ram s) (reg s) (pc s + 2) (fl s) (sp s)
               (stdout s ++ print_line v)%string.
Proof.
  unfold exec_PRN. intros H. bind_inv H. injection H as <-. eauto.
Qed.

Lemma alu_ADD_Ok (a b : Z) (s s' : cpu) :
  alu ADD a b s = Ok s' ->
  exists x y r,
    reg_read s a = Ok x /\ reg_read s b = Ok y /\
    setitem (reg s) a (x + y) = Ok r /\ s' = set_reg r s.
Proof.
  unfold alu, reg_write. simpl. intros H.
  do 3 bind_inv H. injection H as <-. eauto 8.
Qed.

Lemma alu_MUL_Ok (a b : Z) (s s' : cpu) :
  alu MUL a b s = Ok s' ->
  exists x y r,
    reg_read s a = Ok x /\ reg_read s b = Ok y /\
    setitem (reg s) a (x * y) = Ok r /\ s' = set_reg r s.
Proof.
  unfold alu, reg_write. simpl. intros H.
  do 3 bind_inv H. injection H as <-. eauto 8.
Qed.

Lemma alu_CMP_Ok (a b : Z) (s s' : cpu) :
  alu CMP a b s = Ok s' ->
  exists x y,
    reg_read s a = Ok x /\ reg_read s b = Ok y /\
    s' = set_fl (compare_flags x y) s.
Proof.
  unfold alu. simpl. intros H. do 2 bind_inv H.
  exists a0, a1. split; [reflexivity | split; [reflexivity |]].
  unfold compare_flags.
  destruct (Z.eqb_spec a0 a1); [congruence |].
  destruct (Z.ltb_spec a0 a1); [congruence |].
  destruct (Z.gtb_spec a0 a1); [congruence | lia].
Qed.

Lemma exec_ALU_Ok (op a b : Z) (s s' : cpu) :
  exec_ALU op a b s = Ok s' ->
  exists s1, alu op a b s = Ok s1 /\ s' = set_pc (pc s1 + 3) s1.
Proof.
  unfold exec_ALU. intros H. bind_inv H. injection H as <-. eauto.
Qed.

(** ** Memory and register bounds *)

Lemma getitem_raise_iff (l : list Z) (i : Z) :
  getitem l i = Raise IndexError <->
  i < - Z.of_nat (length l) \/ Z.of_nat (length l) <= i.
Proof.
  split; [| apply getitem_outside].
  intros H.
  destruct (Z_lt_le_dec i (- Z.of_nat (length l))); [lia |].
  destruct (Z_lt_le_dec i (Z.of_nat (length l))); [| lia].
  destruct (getitem_inside l i) as (v & E & _); [lia | congruence].
Qed.

Lemma setitem_raise_iff (l : list Z) (i v : Z) :
  setitem l i v = Raise IndexError <->
  i < - Z.of_nat (length l) \/ Z.of_nat (length l) <= i.
Proof.
  split; [| apply setitem_outside].
  intros H.
  destruct (Z_lt_le_dec i (- Z.of_nat (length l))); [lia |].
  destruct (Z_lt_le_dec i (Z.of_nat (length l))); [| lia].
  rewrite setitem_inside in H by lia. discriminate.
Qed.

Lemma cell_of_negative (n : nat) (i : Z) :
  - Z.of_nat n <= i < 0 -> cell_of n i = cell_of n (i + Z.of_nat n).
Proof.
  intros Hi. unfold cell_of.
  destruct (Z.ltb_spec i 0); [| lia].
  destruct (Z.ltb_spec (i + Z.of_nat n) 0); [lia |].
  f_equal. lia.
Qed.

Lemma getitem_negative (l : list Z) (i : Z) :
  - Z.of_nat (length l) <= i < 0 ->
  getitem l i = getitem l (i + Z.of_nat (length l)).
Proof.
  intros Hi. unfold getitem.
  destruct (py_index_inside (length l) i) as [-> _]; [lia |].
  destruct (py_index_inside (length l) (i + Z.of_nat (length l))) as [-> _]; [lia |].
  rewrite cell_of_negative by exact Hi. reflexivity.
Qed.

Lemma setitem_negative (l : list Z) (i v : Z) :
  - Z.of_nat (length l) <= i < 0 ->
  setitem l i v = setitem l (i + Z.of_nat (length l)) v.
Proof.
  intros Hi. rewrite !setitem_inside by lia.
  rewrite cell_of_negative by exact Hi. reflexivity.
Qed.

Lemma ram_write_raise_iff (s : cpu) (a v : Z) :
  ram_write s a v = Raise IndexError <-> setitem (ram s) a v = Raise IndexError.
Proof.
  unfold ram_write. destruct (setitem (ram s) a v); simpl; split; congruence.
Qed.


(** C4 (amended).  A memory read or write raises [IndexError] exactly when
    the address is below -256 or above 255.  An address from -256 to -1 is
    not refused: it reads and writes the cell 256 places higher, as any
    negative index into a Python list does. *)
Theorem ram_access_bounds (s : cpu) (a v : Z) :
  wf s ->
  (ram_read s a = Raise IndexError <-> a < -256 \/ 255 < a) /\
  (ram_write s a v = Raise IndexError <-> a < -256 \/ 255 < a) /\
  (-256 <= a < 0 ->
     ram_read s a = ram_read s (a + 256) /\
     ram_write s a v = ram_write s (a + 256) v).
Proof.
  intros [Hm _]. unfold ram_read. rewrite ram_write_raise_iff.
  rewrite getitem_raise_iff, setitem_raise_iff, Hm.
  split; [lia | split; [lia |]].
  intros Ha. unfold ram_write.
  rewrite (getitem_negative (ram s) a), (setitem_negative (ram s) a), Hm by (rewrite Hm; lia).
  split; reflexivity.
Qed.

Lemma ram_access_bounds_witness :
  (ram_read CPU_init (-1) = Raise IndexError <-> -1 < -256 \/ 255 < -1) /\
  (ram_write CPU_init (-1) 7 = Raise IndexError <-> -1 < -256 \/ 255 < -1) /\
  (-256 <= -1 < 0 ->
     ram_read CPU_init (-1) = ram_read CPU_init (-1 + 256) /\
     ram_write CPU_init (-1) 7 = ram_write CPU_init (-1 + 256) 7).
Proof. apply (ram_access_bounds CPU_init (-1) 7). exact CPU_init_wf. Defined.

(** C4, as stated, fails at address -1: the read returns the content of
    cell 255 and the write stores into cell 255. *)
Lemma ram_negative_address_accepted :
  ram_read CPU_init (-1) = Ok 0 /\
  (s' <- ram_write CPU_init (-1) 7 ;; ram_read s' 255) = Ok 7.
Proof. split; reflexivity. Qed.







Section BadRegister.

Variable s : cpu.
Hypothesis Hwf : wf s.
Variable i : Z.
Hypothesis Hi : i < -8 \/ 7 < i.













End BadRegister.






Example LDI_register_8_raises : exec 1 [LDI; 8; 5] = Raised IndexError.
Proof. reflexivity. Qed.

(** ** Instruction bytes without a branch *)

Lemma dispatch_undefined (IR a b : Z) (s : cpu) :
  defined_opcode IR = false -> dispatch IR a b s = Running s.
Proof.
  unfold defined_opcode, dispatch. intros H.
  repeat match goal with
         | |- (if ?c then _ else _) = _ =>
             destruct c; [simpl in H; try rewrite !orb_true_r in H; discriminate H |]
         end.
  reflexivity.
Qed.

Lemma step_undefined (s : cpu) (IR a b : Z) :
  fetch s = Ok (IR, a, b) -> defined_opcode IR = false -> step s = Running s.
Proof.
  intros Hf Hd. unfold step. rewrite Hf. apply dispatch_undefined, Hd.
Qed.

(** With such a byte at [pc] the loop goes round for ever in the same
    state: no number of turns halts it or raises anything. *)
Lemma run_n_undefined (s : cpu) (IR a b : Z) :
  fetch s = Ok (IR, a, b) -> defined_opcode IR = false ->
  forall n, run_n n s = Running s.
Proof.
  intros Hf Hd. induction n as [| n IH]; simpl.
  - reflexivity.
  - rewrite (step_undefined s IR a b Hf Hd). exact IH.
Qed.

(** C1.  The program whose only byte is 0xFF, which is no opcode: however
    many turns the loop is given, it is still running, in the state the
    program was loaded into; it never halts and never raises. *)
Theorem undefined_opcode_never_stops :
  forall n : nat,
    defined_opcode 0xFF = false /\
    exists s, boot [0xFF] = Ok s /\ exec n [0xFF] = Running s.
Proof.
  intros n. split; [reflexivity |].
  destruct (boot [0xFF]) as [s |] eqn:E; [| discriminate].
  exists s. split; [reflexivity |].
  unfold exec. rewrite E.
  apply (run_n_undefined s 0xFF 0 0); [| reflexivity].
  vm_compute in E. injection E as <-. reflexivity.
Qed.

(** ** Compare *)

Lemma reg_read_inside (s : cpu) (i : Z) :
  wf s -> -8 <= i < 8 -> exists v, reg_read s i = Ok v.
Proof.
  intros [_ Hr] Hi. destruct (getitem_inside (reg s) i) as (v & E & _).
  - rewrite Hr. lia.
  - exists v. exact E.
Qed.

Lemma alu_CMP_eval (s : cpu) (a b x y : Z) :
  reg_read s a = Ok x -> reg_read s b = Ok y ->
  alu CMP a b s = Ok (set_fl (compare_flags x y) s).
Proof.
  intros Ha Hb. unfold alu. simpl. rewrite Ha, Hb. simpl.
  unfold compare_flags.
  destruct (Z.eqb_spec x y); [reflexivity |].
  destruct (Z.ltb_spec x y); [reflexivity |].
  destruct (Z.gtb_spec x y); [reflexivity | lia].
Qed.

Lemma compare_flags_cases (x y : Z) :
  (x = y -> compare_flags x y = FL_E) /\
  (x < y -> compare_flags x y = FL_L) /\
  (x > y -> compare_flags x y = FL_G).
Proof.
  unfold compare_flags.
  destruct (Z.eqb_spec x y), (Z.ltb_spec x y); repeat split; intros; lia || reflexivity.
Qed.

Lemma compare_flags_one_bit (x y : Z) :
  exists k, 0 <= k <= 2 /\ compare_flags x y = 2 ^ k.
Proof.
  unfold compare_flags. destruct (x =? y); [| destruct (x <? y)].
  - exists 0. split; [lia | reflexivity].
  - exists 2. split; [lia | reflexivity].
  - exists 1. split; [lia | reflexivity].
Qed.

(** C6.  For register numbers [a] and [b] holding [x] and [y], the compare
    leaves every field but the flags as it was and sets the flags to the
    Equal value when [x = y], to the Less-than value when [x < y] and to
    the Greater-than value when [x > y]: one of the three single bits.  The
    flags before the compare play no part in the result, and a second
    compare leaves what it would have left on its own. *)
Theorem cmp_replaces_flags (s : cpu) (a b : Z) :
  wf s -> -8 <= a < 8 -> -8 <= b < 8 ->
  exists x y,
    reg_read s a = Ok x /\ reg_read s b = Ok y /\
    alu CMP a b s = Ok (mkCPU (ram s) (reg s) (pc s) (compare_flags x y)
                              (sp s) (stdout s)) /\
    (x = y -> compare_flags x y = FL_E) /\
    (x < y -> compare_flags x y = FL_L) /\
    (x > y -> compare_flags x y = FL_G) /\
    (exists k, 0 <= k <= 2 /\ compare_flags x y = 2 ^ k) /\
    (forall f0, alu CMP a b (set_fl f0 s) = alu CMP a b s) /\
    (forall c d, -8 <= c < 8 -> -8 <= d < 8 ->
       (s1 <- alu CMP a b s ;; alu CMP c d s1) = alu CMP c d s) /\
    (fetch s = Ok (CMP, a, b) ->
       step s = Running (mkCPU (ram s) (reg s) (pc s + 3) (compare_flags x y)
                               (sp s) (stdout s))).
Proof.
  intros Hwf Ha Hb.
  destruct (reg_read_inside s a Hwf Ha) as [x Hx].
  destruct (reg_read_inside s b Hwf Hb) as [y Hy].
  exists x, y.
  split; [exact Hx | split; [exact Hy |]].
  split; [exact (alu_CMP_eval s a b x y Hx Hy) |].
  destruct (compare_flags_cases x y) as (He & Hl & Hg).
  split; [exact He | split; [exact Hl | split; [exact Hg |]]].
  split; [apply compare_flags_one_bit |].
  split; [| split].
  - intros f0.
    rewrite (alu_CMP_eval (set_fl f0 s) a b x y Hx Hy).
    rewrite (alu_CMP_eval s a b x y Hx Hy). reflexivity.
  - intros c d Hc Hd.
    destruct (reg_read_inside s c Hwf Hc) as [u Hu].
    destruct (reg_read_inside s d Hwf Hd) as [v Hv].
    rewrite (alu_CMP_eval s a b x y Hx Hy). simpl.
    rewrite (alu_CMP_eval (set_fl (compare_flags x y) s) c d u v Hu Hv).
    rewrite (alu_CMP_eval s c d u v Hu Hv). reflexivity.
  - intros Hf. unfold step. rewrite Hf.
    change (dispatch CMP a b s) with (continue (exec_ALU CMP a b s)).
    unfold exec_ALU. rewrite (alu_CMP_eval s a b x y Hx Hy). reflexivity.
Qed.

Lemma cmp_replaces_flags_witness :
  exists x y,
    reg_read cmp_state 0 = Ok x /\ reg_read cmp_state 1 = Ok y /\
    alu CMP 0 1 cmp_state
      = Ok (mkCPU (ram cmp_state) (reg cmp_state) (pc cmp_state)
                  (compare_flags x y) (sp cmp_state) (stdout cmp_state)) /\
    (x = y -> compare_flags x y = FL_E) /\
    (x < y -> compare_flags x y = FL_L) /\
    (x > y -> compare_flags x y = FL_G) /\
    (exists k, 0 <= k <= 2 /\ compare_flags x y = 2 ^ k) /\
    (forall f0, alu CMP 0 1 (set_fl f0 cmp_state) = alu CMP 0 1 cmp_state) /\
    (forall c d, -8 <= c < 8 -> -8 <= d < 8 ->
       (s1 <- alu CMP 0 1 cmp_state ;; alu CMP c d s1) = alu CMP c d cmp_state) /\
    (fetch cmp_state = Ok (CMP, 0, 1) ->
       step cmp_state
         = Running (mkCPU (ram cmp_state) (reg cmp_state) (pc cmp_state + 3)
                          (compare_flags x y) (sp cmp_state) (stdout cmp_state))).
Proof.
  apply (cmp_replaces_flags cmp_state 0 1).
  - split; reflexivity.
  - lia.
  - lia.
Defined.

(** ** Arithmetic *)

Lemma run_n_Halted_more (n : nat) :
  forall (s s' : cpu) (m : nat),
    run_n n s = Halted s' -> (n <= m)%nat -> run_n m s = Halted s'.
Proof.
  induction n as [| n IH]; simpl; intros s s' m H Hm.
  - discriminate.
  - destruct m as [| m]; [lia |]. simpl.
    destruct (step s) as [t | t | e]; try exact H.
    apply IH; [exact H | lia].
Qed.

Lemma exec_Halted_more (n m : nat) (vals : list Z) (s' : cpu) :
  exec n vals = Halted s' -> (n <= m)%nat -> exec m vals = Halted s'.
Proof.
  unfold exec. destruct (boot vals); [| discriminate].
  apply run_n_Halted_more.
Qed.

Lemma reg_read_Ok_range (s : cpu) (i v : Z) :
  wf s -> reg_read s i = Ok v -> -8 <= i < 8.
Proof.
  intros [_ Hr] H. apply getitem_Ok_inv in H as [Hi _]. rewrite Hr in Hi. lia.
Qed.

(** [self.reg[a] += self.reg[b]] and [self.reg[a] *= self.reg[b]] store the
    exact sum and product: Python integers do not wrap. *)
Lemma alu_ADD_eval (s : cpu) (a b x y : Z) :
  wf s -> reg_read s a = Ok x -> reg_read s b = Ok y ->
  exists s', alu ADD a b s = Ok s' /\ reg_read s' a = Ok (x + y).
Proof.
  intros Hwf Ha Hb. pose proof (reg_read_Ok_range s a x Hwf Ha) as Hi.
  destruct Hwf as [_ Hr].
  unfold alu. simpl. rewrite Ha, Hb. simpl. unfold reg_write.
  destruct (setitem (reg s) a (x + y)) as [r |] eqn:E.
  - exists (set_reg r s). split; [reflexivity |].
    exact (getitem_setitem_same _ _ _ _ E).
  - rewrite setitem_inside in E by (rewrite Hr; lia). discriminate.
Qed.

Lemma alu_MUL_eval (s : cpu) (a b x y : Z) :
  wf s -> reg_read s a = Ok x -> reg_read s b = Ok y ->
  exists s', alu MUL a b s = Ok s' /\ reg_read s' a = Ok (x * y).
Proof.
  intros Hwf Ha Hb. pose proof (reg_read_Ok_range s a x Hwf Ha) as Hi.
  destruct Hwf as [_ Hr].
  unfold alu. simpl. rewrite Ha, Hb. simpl. unfold reg_write.
  destruct (setitem (reg s) a (x * y)) as [r |] eqn:E.
  - exists (set_reg r s). split; [reflexivity |].
    exact (getitem_setitem_same _ _ _ _ E).
  - rewrite setitem_inside in E by (rewrite Hr; lia). discriminate.
Qed.

Lemma add_program_run (x y : Z) :
  exec 5 (add_program x y) = Halted (add_program_final x y).
Proof. reflexivity. Qed.

Lemma mul_program_run (x y : Z) :
  exec 5 (mul_program x y) = Halted (mul_program_final x y).
Proof. reflexivity. Qed.

(** C2 (amended).  For 8-bit [x] and [y] the program
    [LDI R0,x; LDI R1,y; ADD R0,R1; PRN R0; HLT] halts after its five
    instructions having printed the decimal digits of [x + y] and a
    newline, with [x + y] in register 0; nothing is reduced modulo 256, so
    the line is that of [(x + y) mod 256] when [x + y < 256].  The ALU's
    ADD stores the exact sum of the two registers into the first. *)
Theorem add_program_emits_sum (x y : Z) :
  0 <= x < 256 -> 0 <= y < 256 ->
  (forall n, (5 <= n)%nat ->
     exec n (add_program x y) = Halted (add_program_final x y)) /\
  emitted (exec 5 (add_program x y)) = Some (print_line (x + y)) /\
  (x + y < 256 ->
     emitted (exec 5 (add_program x y)) = Some (print_line ((x + y) mod 256))) /\
  (forall s a b u v,
     wf s -> reg_read s a = Ok u -> reg_read s b = Ok v ->
     exists s', alu ADD a b s = Ok s' /\ reg_read s' a = Ok (u + v)).
Proof.
  intros Hx Hy. split; [| split; [| split]].
  - intros n Hn. apply (exec_Halted_more 5 n); [apply add_program_run | exact Hn].
  - rewrite add_program_run. reflexivity.
  - intros Hsmall. rewrite add_program_run. simpl.
    rewrite Z.mod_small by lia. reflexivity.
  - intros s a b u v. apply alu_ADD_eval.
Qed.

Lemma add_program_emits_sum_witness :
  (forall n, (5 <= n)%nat ->
     exec n (add_program 8 9) = Halted (add_program_final 8 9)) /\
  emitted (exec 5 (add_program 8 9)) = Some (print_line (8 + 9)) /\
  (8 + 9 < 256 ->
     emitted (exec 5 (add_program 8 9)) = Some (print_line ((8 + 9) mod 256))) /\
  (forall s a b u v,
     wf s -> reg_read s a = Ok u -> reg_read s b = Ok v ->
     exists s', alu ADD a b s = Ok s' /\ reg_read s' a = Ok (u + v)).
Proof. apply (add_program_emits_sum 8 9); lia. Defined.

(** C2, as stated, fails at [x = 200], [y = 100]: the program prints 300,
    not 44. *)
Lemma add_program_prints_300 :
  emitted (exec 5 (add_program 200 100)) = Some ("300" ++ newline)%string /\
  emitted (exec 5 (add_program 200 100))
    <> Some (print_line ((200 + 100) mod 256)).
Proof. split; [reflexivity | discriminate]. Qed.

(** C3 (amended).  For 8-bit [x] and [y] the program
    [LDI R0,x; LDI R1,y; MUL R0,R1; PRN R0; HLT] halts after its five
    instructions having printed the decimal digits of [x * y] and a
    newline, with [x * y] in register 0; nothing is reduced modulo 256, so
    the line is that of [(x * y) mod 256] when [x * y < 256].  The ALU's
    MUL stores the exact product of the two registers into the first. *)
Theorem mul_program_emits_product (x y : Z) :
  0 <= x < 256 -> 0 <= y < 256 ->
  (forall n, (5 <= n)%nat ->
     exec n (mul_program x y) = Halted (mul_program_final x y)) /\
  emitted (exec 5 (mul_program x y)) = Some (print_line (x * y)) /\
  (x * y < 256 ->
     emitted (exec 5 (mul_program x y)) = Some (print_line ((x * y) mod 256))) /\
  (forall s a b u v,
     wf s -> reg_read s a = Ok u -> reg_read s b = Ok v ->
     exists s', alu MUL a b s = Ok s' /\ reg_read s' a = Ok (u * v)).
Proof.
  intros Hx Hy. split; [| split; [| split]].
  - intros n Hn. apply (exec_Halted_more 5 n); [apply mul_program_run | exact Hn].
  - rewrite mul_program_run. reflexivity.
  - intros Hsmall. rewrite mul_program_run. simpl.
    rewrite Z.mod_small by nia. reflexivity.
  - intros s a b u v. apply alu_MUL_eval.
Qed.

Lemma mul_program_emits_product_witness :
  (forall n, (5 <= n)%nat ->
     exec n (mul_program 8 9) = Halted (mul_program_final 8 9)) /\
  emitted (exec 5 (mul_program 8 9)) = Some (print_line (8 * 9)) /\
  (8 * 9 < 256 ->
     emitted (exec 5 (mul_program 8 9)) = Some (print_line ((8 * 9) mod 256))) /\
  (forall s a b u v,
     wf s -> reg_read s a = Ok u -> reg_read s b = Ok v ->
     exists s', alu MUL a b s = Ok s' /\ reg_read s' a = Ok (u * v)).
Proof. apply (mul_program_emits_product 8 9); lia. Defined.

(** C3, as stated, fails at [x = 16], [y = 16]: the program prints 256,
    not 0. *)
Lemma mul_program_prints_256 :
  emitted (exec 5 (mul_program 16 16)) = Some ("256" ++ newline)%string /\
  emitted (exec 5 (mul_program 16 16))
    <> Some (print_line ((16 * 16) mod 256)).
Proof. split; [reflexivity | discriminate]. Qed.

(** ** Effect of a turn on the stack pointer, the flags and the memory *)

Lemma undefined_opcode_effect (IR : Z) :
  defined_opcode IR = false ->
  pushes IR = false /\ pops IR = false /\ IR <> CMP.
Proof.
  unfold defined_opcode, pushes, pops. intros H.
  repeat match type of H with
         | _ || _ = false => apply orb_false_elim in H as [H ?]
         end.
  repeat split.
  - apply orb_false_intro; assumption.
  - apply orb_false_intro; assumption.
  - apply Z.eqb_neq. assumption.
Qed.

(** Closes the side conditions of [step_effect] for a known opcode. *)
Ltac effect_side :=
  repeat split; intros;
  repeat match goal with
         | H : pushes _ = _ |- _ => vm_compute in H
         | H : _ = CMP |- _ => vm_compute in H
         | |- context [stack_effect ?op] =>
             let v := eval vm_compute in (stack_effect op) in
             change (stack_effect op) with v
         end;
  try discriminate; simpl; try lia; try reflexivity.

Lemma step_effect (s s' : cpu) (IR a b : Z) :
  fetch s = Ok (IR, a, b) -> step s = Running s' ->
  sp s' = sp s + stack_effect IR /\
  (IR <> CMP -> fl s' = fl s) /\
  (IR = CMP -> exists x y, fl s' = compare_flags x y) /\
  (pushes IR = false -> ram s' = ram s) /\
  (pushes IR = true -> exists v, setitem (ram s) (sp s - 1) v = Ok (ram s')).
Proof.
  intros Hf Hs. unfold step in Hs. rewrite Hf in Hs.
  apply dispatch_Running in Hs.
  repeat match type of Hs with
         | _ \/ _ => destruct Hs as [[-> Hx] | Hs]
         end.
  - apply exec_JEQ_Ok in Hx as (v & -> & _). effect_side.
  - apply exec_JNE_Ok in Hx as (v & -> & _). effect_side.
  - apply exec_JMP_Ok in Hx as (v & _ & ->). effect_side.
  - apply exec_ALU_Ok in Hx as (s1 & Hx & ->).
    apply alu_CMP_Ok in Hx as (x & y & _ & _ & ->). effect_side.
    exists x, y. reflexivity.
  - apply exec_CALL_Ok in Hx as (m & v & Hm & _ & ->). effect_side.
    exists (pc s + 2). exact Hm.
  - apply exec_RET_Ok in Hx as (popped & _ & ->). effect_side.
  - apply exec_PUSH_Ok in Hx as (v & m & _ & Hm & ->). effect_side.
    exists v. exact Hm.
  - apply exec_POP_Ok in Hx as (popped & r & _ & _ & ->). effect_side.
  - apply exec_LDI_Ok in Hx as (r & _ & ->). effect_side.
  - apply exec_ALU_Ok in Hx as (s1 & Hx & ->).
    apply alu_MUL_Ok in Hx as (x & y & r & _ & _ & _ & ->). effect_side.
  - apply exec_ALU_Ok in Hx as (s1 & Hx & ->).
    apply alu_ADD_Ok in Hx as (x & y & r & _ & _ & _ & ->). effect_side.
  - apply exec_PRN_Ok in Hx as (v & _ & ->). effect_side.
  - destruct Hs as [Hd ->].
    destruct (undefined_opcode_effect IR Hd) as (Hpu & Hpo & Hc).
    unfold stack_effect. rewrite Hpu, Hpo.
    repeat split; intros; try (lia || reflexivity || congruence).
Qed.

Lemma run_n_S_Running (n : nat) (s s' : cpu) :
  run_n (S n) s = Running s' ->
  exists IR a b s1,
    fetch s = Ok (IR, a, b) /\ step s = Running s1 /\
    run_n n s1 = Running s' /\ ops (S n) s = IR :: ops n s1.
Proof.
  simpl. destruct (step s) as [s1 | s1 | e] eqn:Es; try discriminate.
  intros H. destruct (step_Running s s1 Es) as (IR & a & b & Hf & _).
  exists IR, a, b, s1. rewrite Hf. auto.
Qed.



(** ** Flags and conditional jumps *)

Lemma load_from_fl (vals : list Z) :
  forall (address : Z) (s s' : cpu),
    load_from address vals s = Ok s' -> fl s' = fl s.
Proof.
  induction vals as [| v rest IH]; simpl; intros address s s' H.
  - injection H as <-. reflexivity.
  - bind_inv H. rewrite (IH _ _ _ H). reflexivity.
Qed.

Lemma boot_fl (vals : list Z) (s : cpu) : boot vals = Ok s -> fl s = 0.
Proof. intros H. apply load_from_fl in H. exact H. Qed.

Lemma compare_flags_value (x y : Z) : flags_value (compare_flags x y).
Proof.
  unfold flags_value, compare_flags.
  destruct (x =? y); [| destruct (x <? y)]; auto.
Qed.

Lemma step_flags_value (s s' : cpu) :
  flags_value (fl s) -> step s = Running s' -> flags_value (fl s').
Proof.
  intros Hv Hs. destruct (step_Running s s' Hs) as (IR & a & b & Hf & _).
  destruct (step_effect s s' IR a b Hf Hs) as (_ & Hne & Heq & _).
  destruct (Z.eq_dec IR CMP) as [E | E].
  - destruct (Heq E) as (x & y & ->). apply compare_flags_value.
  - rewrite (Hne E). exact Hv.
Qed.

Lemma run_n_flags_value (n : nat) :
  forall s s' : cpu,
    flags_value (fl s) -> run_n n s = Running s' -> flags_value (fl s').
Proof.
  induction n as [| n IH]; intros s s' Hv H.
  - injection H as <-. exact Hv.
  - destruct (run_n_S_Running n s s' H) as (IR & a & b & s1 & _ & Hs & Hr & _).
    exact (IH s1 s' (step_flags_value s s1 Hv Hs) Hr).
Qed.

Lemma reachable_flags_value (s : cpu) : reachable s -> flags_value (fl s).
Proof.
  intros (vals & s0 & n & Hb & Hr).
  apply (run_n_flags_value n s0 s); [| exact Hr].
  left. exact (boot_fl vals s0 Hb).
Qed.

Lemma reachable_wf (s : cpu) : reachable s -> wf s.
Proof.
  intros (vals & s0 & n & Hb & Hr).
  exact (run_n_wf n s0 s (boot_wf vals s0 Hb) Hr).
Qed.

(** On the values the flags take, the test [self.fl == 0b00000001] of [run]
    is the test of the Equal bit. *)
Lemma flags_value_equal_flag (f : Z) :
  flags_value f -> (f =? 1) = equal_flag f.
Proof.
  intros [-> | [-> | [-> | ->]]]; reflexivity.
Qed.

Lemma step_JEQ (s : cpu) (a b : Z) :
  fetch s = Ok (JEQ, a, b) -> step s = continue (exec_JEQ a s).
Proof. intros Hf. unfold step. rewrite Hf. reflexivity. Qed.

Lemma step_JNE (s : cpu) (a b : Z) :
  fetch s = Ok (JNE, a, b) -> step s = continue (exec_JNE a s).
Proof. intros Hf. unfold step. rewrite Hf. reflexivity. Qed.

Lemma step_CMP (s : cpu) (a b x y : Z) :
  fetch s = Ok (CMP, a, b) -> reg_read s a = Ok x -> reg_read s b = Ok y ->
  step s = Running (set_pc (pc s + 3) (set_fl (compare_flags x y) s)).
Proof.
  intros Hf Hx Hy. unfold step. rewrite Hf.
  change (dispatch CMP a b s) with (continue (exec_ALU CMP a b s)).
  unfold exec_ALU. rewrite (alu_CMP_eval s a b x y Hx Hy). reflexivity.
Qed.

(** C7.  In every state an execution goes through, [JEQ] sets the program
    counter to the content of the register it names when the Equal flag is
    set and moves it on by 2 when it is not, and [JNE] does the opposite.
    A [CMP] of registers holding [x] and [y] leaves the state [s1] that
    differs from the one before it in the flags, now [compare_flags x y],
    and in the program counter, moved on by 3; and a [JEQ] that comes right
    after it, in [s1], jumps when [x = y] and moves on by 2 when
    [x <> y]. *)
Theorem conditional_jumps (s : cpu) :
  reachable s ->
  (forall a b,
     fetch s = Ok (JEQ, a, b) ->
     (equal_flag (fl s) = true ->
        forall v, reg_read s a = Ok v -> step s = Running (set_pc v s)) /\
     (equal_flag (fl s) = false ->
        step s = Running (set_pc (pc s + 2) s))) /\
  (forall a b,
     fetch s = Ok (JNE, a, b) ->
     (equal_flag (fl s) = false ->
        forall v, reg_read s a = Ok v -> step s = Running (set_pc v s)) /\
     (equal_flag (fl s) = true ->
        step s = Running (set_pc (pc s + 2) s))) /\
  (forall c d x y,
     fetch s = Ok (CMP, c, d) ->
     reg_read s c = Ok x -> reg_read s d = Ok y ->
     exists s1,
       step s = Running s1 /\
       s1 = mkCPU (ram s) (reg s) (pc s + 3) (compare_flags x y) (sp s)
                  (stdout s) /\
       fl s1 = compare_flags x y /\ pc s1 = pc s + 3 /\ ram s1 = ram s /\
       (equal_flag (fl s1) = true <-> x = y) /\
       forall a b v,
         fetch s1 = Ok (JEQ, a, b) -> reg_read s1 a = Ok v ->
         (x = y -> step s1 = Running (set_pc v s1)) /\
         (x <> y -> step s1 = Running (set_pc (pc s1 + 2) s1))).
Proof.
  intros Hre. pose proof (reachable_flags_value s Hre) as Hv.
  pose proof (flags_value_equal_flag (fl s) Hv) as HE.
  split; [| split].
  - intros a b Hf. rewrite (step_JEQ s a b Hf). unfold exec_JEQ.
    change 0x01 with 1. rewrite HE. split.
    + intros -> v ->. reflexivity.
    + intros ->. reflexivity.
  - intros a b Hf. rewrite (step_JNE s a b Hf). unfold exec_JNE.
    change 0x01 with 1. rewrite HE. split.
    + intros -> v ->. reflexivity.
    + intros ->. reflexivity.
  - intros c d x y Hf Hx Hy.
    exists (set_pc (pc s + 3) (set_fl (compare_flags x y) s)).
    split; [exact (step_CMP s c d x y Hf Hx Hy) |].
    split; [reflexivity |]. split; [reflexivity |].
    split; [reflexivity |]. split; [reflexivity |].
    split.
    { simpl. unfold compare_flags.
      destruct (Z.eqb_spec x y) as [E | E].
      - split; [intros _; exact E | intros _; reflexivity].
      - destruct (x <? y); split; intros H;
          try contradiction; vm_compute in H; discriminate H. }
    intros a b v Hf1 Hv1. rewrite (step_JEQ _ a b Hf1). unfold exec_JEQ.
    rewrite Hv1. simpl. unfold compare_flags. split.
    + intros ->. rewrite Z.eqb_refl. reflexivity.
    + intros Hne. apply Z.eqb_neq in Hne. rewrite Hne.
      destruct (x <? y); reflexivity.
Qed.

Lemma conditional_jumps_witness :
  (forall a b,
     fetch branch_state = Ok (JEQ, a, b) ->
     (equal_flag (fl branch_state) = true ->
        forall v, reg_read branch_state a = Ok v ->
                  step branch_state = Running (set_pc v branch_state)) /\
     (equal_flag (fl branch_state) = false ->
        step branch_state = Running (set_pc (pc branch_state + 2) branch_state))) /\
  (forall a b,
     fetch branch_state = Ok (JNE, a, b) ->
     (equal_flag (fl branch_state) = false ->
        forall v, reg_read branch_state a = Ok v ->
                  step branch_state = Running (set_pc v branch_state)) /\
     (equal_flag (fl branch_state) = true ->
        step branch_state = Running (set_pc (pc branch_state + 2) branch_state))) /\
  (forall c d x y,
     fetch branch_state = Ok (CMP, c, d) ->
     reg_read branch_state c = Ok x -> reg_read branch_state d = Ok y ->
     exists s1,
       step branch_state = Running s1 /\
       s1 = mkCPU (ram branch_state) (reg branch_state) (pc branch_state + 3)
                  (compare_flags x y) (sp branch_state) (stdout branch_state) /\
       fl s1 = compare_flags x y /\ pc s1 = pc branch_state + 3 /\
       ram s1 = ram branch_state /\
       (equal_flag (fl s1) = true <-> x = y) /\
       forall a b v,
         fetch s1 = Ok (JEQ, a, b) -> reg_read s1 a = Ok v ->
         (x = y -> step s1 = Running (set_pc v s1)) /\
         (x <> y -> step s1 = Running (set_pc (pc s1 + 2) s1))).
Proof.
  apply (conditional_jumps branch_state).
  exists branch_program, (set_ram (branch_program ++ replicate 244 0) CPU_init), 2%nat.
  split; reflexivity.
Defined.

(** The branch is not taken in [branch_state]: 7 is compared with 0. *)
Example branch_program_falls_through :
  exec 5 branch_program
  = Halted (mkCPU (branch_program ++ replicate 244 0) [7; 0; 9; 0; 0; 0; 0; 0]
                  11 FL_G 0xF4 EmptyString).
Proof. reflexivity. Qed.

(** No instruction but [CMP] writes the flags. *)
Lemma run_n_flags_kept (n : nat) :
  forall s s' : cpu,
    run_n n s = Running s' ->
    forallb (fun IR => negb (IR =? CMP)) (ops n s) = true ->
    fl s' = fl s.
Proof.
  induction n as [| n IH]; intros s s' H Hno.
  - injection H as <-. reflexivity.
  - destruct (run_n_S_Running n s s' H) as (IR & a & b & s1 & Hf & Hs & Hr & Ho).
    rewrite Ho in Hno. simpl in Hno. apply andb_true_iff in Hno as [Hne Hno].
    apply negb_true_iff, Z.eqb_neq in Hne.
    destruct (step_effect s s1 IR a b Hf Hs) as (_ & Hfl & _).
    rewrite (IH s1 s' Hr Hno). exact (Hfl Hne).
Qed.

(** C10.  After any number of turns of the loop none of which executed a
    [CMP] (none at all included), the flags register of a freshly loaded
    CPU is 0; there a [JNE] sets the program counter to the content of the
    register it names and a [JEQ] moves it on by 2. *)
Theorem flags_zero_without_compare (vals : list Z) (s0 s : cpu) (n : nat) :
  boot vals = Ok s0 ->
  run_n n s0 = Running s ->
  forallb (fun IR => negb (IR =? CMP)) (ops n s0) = true ->
  fl s = 0 /\
  (forall a b v,
     fetch s = Ok (JNE, a, b) -> reg_read s a = Ok v ->
     step s = Running (set_pc v s)) /\
  (forall a b,
     fetch s = Ok (JEQ, a, b) -> step s = Running (set_pc (pc s + 2) s)).
Proof.
  intros Hb Hr Hno.
  assert (Hfl : fl s = 0).
  { rewrite (run_n_flags_kept n s0 s Hr Hno). exact (boot_fl vals s0 Hb). }
  split; [exact Hfl | split].
  - intros a b v Hf Hv. rewrite (step_JNE s a b Hf). unfold exec_JNE.
    rewrite Hfl, Hv. reflexivity.
  - intros a b Hf. rewrite (step_JEQ s a b Hf). unfold exec_JEQ.
    rewrite Hfl. reflexivity.
Qed.

Lemma flags_zero_without_compare_witness :
  fl jne_state = 0 /\
  (forall a b v,
     fetch jne_state = Ok (JNE, a, b) -> reg_read jne_state a = Ok v ->
     step jne_state = Running (set_pc v jne_state)) /\
  (forall a b,
     fetch jne_state = Ok (JEQ, a, b) ->
     step jne_state = Running (set_pc (pc jne_state + 2) jne_state)).
Proof.
  apply (flags_zero_without_compare jne_program
           (set_ram (jne_program ++ replicate 247 0) CPU_init) jne_state 1);
    reflexivity.
Defined.

Example jne_program_jumps :
  emitted (exec 3 jne_program) = Some EmptyString.
Proof. reflexivity. Qed.

(** ** The stack *)

Lemma step_PUSH (s : cpu) (a b v : Z) (m : list Z) :
  fetch s = Ok (PUSH, a, b) -> reg_read s a = Ok v ->
  setitem (ram s) (sp s - 1) v = Ok m ->
  step s = Running (mkCPU m (reg s) (pc s + 2) (fl s) (sp s - 1) (stdout s)).
Proof.
  intros Hf Hv Hm. unfold step. rewrite Hf.
  change (dispatch PUSH a b s) with (continue (exec_PUSH a s)).
  unfold exec_PUSH, ram_write. unfold reg_read at 1. simpl.
  fold (reg_read s a). rewrite Hv. simpl. rewrite Hm. reflexivity.
Qed.

Lemma step_POP (s : cpu) (a b popped : Z) (r : list Z) :
  fetch s = Ok (POP, a, b) -> ram_read s (sp s) = Ok popped ->
  setitem (reg s) a popped = Ok r ->
  step s = Running (mkCPU (ram s) r (pc s + 2) (fl s) (sp s + 1) (stdout s)).
Proof.
  intros Hf Hp Hr. unfold step. rewrite Hf.
  change (dispatch POP a b s) with (continue (exec_POP a s)).
  unfold exec_POP, reg_write. rewrite Hp. simpl. rewrite Hr. reflexivity.
Qed.






Example push_pop_program_run :
  exec 4 push_pop_program
  = Halted (mkCPU (<[243%nat := 42]> (push_pop_program ++ replicate 248 0))
                  [42; 42; 0; 0; 0; 0; 0; 0] 7 0 0xF4 EmptyString)
  /\ balanced (ops 3 (set_ram (push_pop_program ++ replicate 248 0) CPU_init))
     = true.
Proof. split; reflexivity. Qed.

(** ** Subroutines *)

Lemma step_CALL (s : cpu) (a b v : Z) (m : list Z) :
  fetch s = Ok (CALL, a, b) ->
  setitem (ram s) (sp s - 1) (pc s + 2) = Ok m ->
  reg_read s a = Ok v ->
  step s = Running (mkCPU m (reg s) v (fl s) (sp s - 1) (stdout s)).
Proof.
  intros Hf Hm Hv. unfold step. rewrite Hf.
  change (dispatch CALL a b s) with (continue (exec_CALL a s)).
  unfold exec_CALL, ram_write. simpl. rewrite Hm. simpl.
  unfold reg_read. simpl. fold (reg_read s a). rewrite Hv. reflexivity.
Qed.

Lemma step_RET (s : cpu) (a b popped : Z) :
  fetch s = Ok (RET, a, b) -> ram_read s (sp s) = Ok popped ->
  step s = Running (mkCPU (ram s) (reg s) popped (fl s) (sp s + 1) (stdout s)).
Proof.
  intros Hf Hp. unfold step. rewrite Hf.
  change (dispatch RET a b s) with (continue (exec_RET s)).
  unfold exec_RET. rewrite Hp. reflexivity.
Qed.

Lemma peak_ge (d : nat) (l : list Z) : (d <= peak d l)%nat.
Proof. destruct l; simpl; lia. Qed.

(** Two in-range indices less than 256 apart name different cells. *)
Lemma cell_of_apart (i j : Z) :
  -256 <= i < 256 -> -256 <= j < 256 -> 0 < j - i < 256 ->
  cell_of 256 i <> cell_of 256 j.
Proof.
  intros Hi Hj Hd. unfold cell_of.
  destruct (Z.ltb_spec i 0), (Z.ltb_spec j 0); lia.
Qed.

(** A balanced run that starts [d] cells below [base] and never goes 256
    cells below it leaves the cell at [base] alone and ends at [base]. *)
Lemma balanced_run_frame (n : nat) :
  forall (s s' : cpu) (d : nat) (base : Z),
    wf s ->
    run_n n s = Running s' ->
    balanced_from d (ops n s) = true ->
    (peak d (ops n s) < 256)%nat ->
    sp s = base - Z.of_nat d ->
    -256 <= base < 256 ->
    ram_read s' base = ram_read s base /\ sp s' = base.
Proof.
  induction n as [| n IH]; intros s s' d base Hwf Hr Hb Hp Hsp Hbase.
  - injection Hr as <-. simpl in Hb. apply Nat.eqb_eq in Hb.
    split; [reflexivity | lia].
  - destruct (run_n_S_Running n s s' Hr) as (IR & a & b & s1 & Hf & Hs & Hr1 & Ho).
    rewrite Ho in Hb, Hp. simpl in Hb, Hp.
    destruct (step_effect s s1 IR a b Hf Hs) as (Hsp1 & _ & _ & Hkeep & Hput).
    pose proof (step_wf s s1 Hwf Hs) as Hwf1.
    unfold stack_effect in Hsp1.
    destruct (pushes IR) eqn:Epu; [| destruct (pops IR) eqn:Epo].
    + destruct (Hput eq_refl) as [v Hv].
      pose proof (peak_ge (S d) (ops n s1)) as Hge.
      destruct (IH s1 s' (S d) base Hwf1 Hr1 Hb ltac:(lia) ltac:(lia) Hbase)
        as [Hram Hend].
      split; [| exact Hend].
      rewrite Hram. unfold ram_read.
      apply (getitem_setitem_other _ _ _ _ _ Hv).
      destruct Hwf as [Hm _]. rewrite Hm.
      apply setitem_Ok_inv in Hv as [Hin _]. rewrite Hm in Hin.
      apply cell_of_apart; lia.
    + destruct d as [| d']; [discriminate |].
      destruct (IH s1 s' d' base Hwf1 Hr1 Hb ltac:(simpl in Hp; lia) ltac:(lia) Hbase)
        as [Hram Hend].
      split; [| exact Hend].
      rewrite Hram. unfold ram_read. rewrite (Hkeep eq_refl). reflexivity.
    + destruct (IH s1 s' d base Hwf1 Hr1 Hb ltac:(lia) ltac:(lia) Hbase)
        as [Hram Hend].
      split; [| exact Hend].
      rewrite Hram. unfold ram_read. rewrite (Hkeep eq_refl). reflexivity.
Qed.

(** C9 (amended).  A [CALL] executed at address [p] with the cell below the
    stack pointer in memory decrements the stack pointer, stores [p + 2]
    there and sets the program counter to the content of its register.  If
    the instructions executed from there up to a [RET] form a balanced
    sequence of stack operations nested less than 256 deep, that [RET] sets
    the program counter to the stored value, increments the stack pointer,
    and so resumes at [p + 2] with the stack pointer of before the
    [CALL]. *)
Theorem call_ret_resumes (s : cpu) (a o v : Z) :
  wf s ->
  fetch s = Ok (CALL, a, o) ->
  reg_read s a = Ok v ->
  -256 <= sp s - 1 < 256 ->
  exists s1,
    step s = Running s1 /\
    sp s1 = sp s - 1 /\
    ram_read s1 (sp s1) = Ok (pc s + 2) /\
    pc s1 = v /\
    forall n s2 o1 o2,
      run_n n s1 = Running s2 ->
      balanced (ops n s1) = true ->
      (peak 0 (ops n s1) < 256)%nat ->
      fetch s2 = Ok (RET, o1, o2) ->
      exists s3,
        step s2 = Running s3 /\
        ram_read s2 (sp s2) = Ok (pc s3) /\
        sp s3 = sp s2 + 1 /\
        pc s3 = pc s + 2 /\
        sp s3 = sp s.
Proof.
  intros Hwf Hf Hv Hsp.
  pose proof Hwf as [Hm Hr].
  pose proof (setitem_inside (ram s) (sp s - 1) (pc s + 2)) as Hset.
  rewrite Hm in Hset. specialize (Hset Hsp).
  pose proof (step_CALL s a o v _ Hf Hset Hv) as Hstep.
  eexists. split; [exact Hstep |].
  pose proof (getitem_setitem_same _ _ _ _ Hset) as Hret.
  split; [reflexivity | split; [exact Hret | split; [reflexivity |]]].
  intros n s2 o1 o2 Hrun Hbal Hpeak Hf2.
  destruct (balanced_run_frame n _ s2 0 (sp s - 1) (step_wf _ _ Hwf Hstep)
              Hrun Hbal Hpeak ltac:(simpl; lia) Hsp) as [Hram Hend].
  unfold ram_read at 2 in Hram. simpl in Hram. rewrite Hret in Hram.
  rewrite <- Hend in Hram.
  eexists. split; [exact (step_RET s2 o1 o2 _ Hf2 Hram) |].
  simpl. repeat split; try assumption; lia.
Qed.

Lemma call_ret_resumes_witness :
  exists s1,
    step call_state = Running s1 /\
    sp s1 = sp call_state - 1 /\
    ram_read s1 (sp s1) = Ok (pc call_state + 2) /\
    pc s1 = 9 /\
    forall n s2 o1 o2,
      run_n n s1 = Running s2 ->
      balanced (ops n s1) = true ->
      (peak 0 (ops n s1) < 256)%nat ->
      fetch s2 = Ok (RET, o1, o2) ->
      exists s3,
        step s2 = Running s3 /\
        ram_read s2 (sp s2) = Ok (pc s3) /\
        sp s3 = sp s2 + 1 /\
        pc s3 = pc call_state + 2 /\
        sp s3 = sp call_state.
Proof.
  apply (call_ret_resumes call_state 0 HLT 9).
  - split; reflexivity.
  - reflexivity.
  - reflexivity.
  - simpl. lia.
Defined.

Example call_program_run :
  exec 6 call_program
  = Halted (mkCPU (<[242%nat := 9]> (<[243%nat := 5]> (call_program ++ replicate 242 0)))
                  [9; 9; 0; 0; 0; 0; 0; 0] 5 0 0xF4 EmptyString).
Proof. reflexivity. Qed.

(** C9, as stated, fails on [wrap_program]: the [CALL] executed at address
    67 by the 14th turn of the loop stores 69 in cell 237; the 934
    instructions executed next are a balanced sequence of stack operations,
    nested 256 deep, in which the push of the 356th turn, at index -19,
    overwrites cell 237 with 17; and the [RET] then executed, with the
    stack pointer back at 237, resumes at 17, not at 69. *)
Lemma call_ret_wrapped_stack :
  exec 13 wrap_program = Running (state_after 13 wrap_program) /\
  fetch (state_after 13 wrap_program) = Ok (CALL, 6, 0) /\
  pc (state_after 13 wrap_program) = 67 /\
  sp (state_after 13 wrap_program) = 238 /\
  step (state_after 13 wrap_program) = Running (state_after 14 wrap_program) /\
  ram_read (state_after 14 wrap_program) 237 = Ok 69 /\
  run_n 934 (state_after 14 wrap_program) = Running (state_after 948 wrap_program) /\
  balanced (ops 934 (state_after 14 wrap_program)) = true /\
  peak 0 (ops 934 (state_after 14 wrap_program)) = 256%nat /\
  fetch (state_after 355 wrap_program) = Ok (PUSH, 6, 69) /\
  sp (state_after 356 wrap_program) = -19 /\
  ram_read (state_after 356 wrap_program) 237 = Ok 17 /\
  fetch (state_after 948 wrap_program) = Ok (RET, 17, 17) /\
  sp (state_after 948 wrap_program) = 237 /\
  step (state_after 948 wrap_program) = Running (state_after 949 wrap_program) /\
  sp (state_after 949 wrap_program) = 238 /\
  pc (state_after 949 wrap_program) = 17 /\
  pc (state_after 949 wrap_program) <> pc (state_after 13 wrap_program) + 2.
Proof.
  repeat apply conj; try (vm_compute; reflexivity).
  vm_compute. discriminate.
Qed.

(** * Further properties of the loop *)

(** ** Fetching *)

Lemma fetch_Ok_inv (s : cpu) (IR a b : Z) :
  fetch s = Ok (IR, a, b) ->
  ram_read s (pc s) = Ok IR /\ ram_read s (pc s + 1) = Ok a /\
  ram_read s (pc s + 2) = Ok b.
Proof.
  unfold fetch. intros H. do 3 bind_inv H. injection H as <- <- <-. auto.
Qed.

Lemma fetch_inside (s : cpu) :
  wf s -> -256 <= pc s <= 253 -> exists t, fetch s = Ok t.
Proof.
  intros [Hm _] Hpc. unfold fetch, ram_read.
  destruct (getitem_inside (ram s) (pc s)) as (x & -> & _); [lia |].
  destruct (getitem_inside (ram s) (pc s + 1)) as (y & -> & _); [lia |].
  destruct (getitem_inside (ram s) (pc s + 2)) as (z & -> & _); [lia |].
  simpl. eauto.
Qed.

Lemma fetch_outside (s : cpu) :
  wf s -> pc s < -256 \/ 253 < pc s -> fetch s = Raise IndexError.
Proof.
  intros [Hm _] Hpc. unfold fetch, ram_read.
  destruct (getitem (ram s) (pc s)) as [x | e] eqn:E0; simpl.
  2: { f_equal. exact (getitem_raises_IndexError _ _ _ E0). }
  destruct (getitem (ram s) (pc s + 1)) as [y | e] eqn:E1; simpl.
  2: { f_equal. exact (getitem_raises_IndexError _ _ _ E1). }
  destruct (getitem (ram s) (pc s + 2)) as [z | e] eqn:E2; simpl.
  2: { f_equal. exact (getitem_raises_IndexError _ _ _ E2). }
  apply getitem_Ok_inv in E0 as [H0 _], E1 as [H1 _], E2 as [H2 _]. lia.
Qed.

(** X1.  Every turn of the loop reads three cells, whatever the
    instruction: the fetch succeeds exactly when the program counter is
    from -256 to 253, and with the program counter anywhere else the turn
    raises [IndexError].  So with the program counter at 254 or 255 a [HLT]
    in that cell does not halt the run; the same [HLT] does when the
    program counter reaches it as -2 or -1. *)
Theorem fetch_reads_three_cells (s : cpu) :
  wf s ->
  ((exists t, fetch s = Ok t) <-> -256 <= pc s <= 253) /\
  (pc s < -256 \/ 253 < pc s -> step s = Raised IndexError).
Proof.
  intros Hwf. split; [split |].
  - intros [t Ht].
    destruct (Z_lt_le_dec (pc s) (-256)) as [Hlo | Hlo].
    { rewrite fetch_outside in Ht by (assumption || lia). discriminate. }
    destruct (Z_lt_le_dec 253 (pc s)) as [Hhi | Hhi]; [| lia].
    rewrite fetch_outside in Ht by (assumption || lia). discriminate.
  - apply fetch_inside. exact Hwf.
  - intros Hpc. unfold step. rewrite fetch_outside by assumption. reflexivity.
Qed.

Lemma fetch_reads_three_cells_witness :
  ((exists t, fetch (state_after 2 edge_program) = Ok t)
   <-> -256 <= pc (state_after 2 edge_program) <= 253) /\
  (pc (state_after 2 edge_program) < -256 \/ 253 < pc (state_after 2 edge_program) ->
   step (state_after 2 edge_program) = Raised IndexError).
Proof.
  apply (fetch_reads_three_cells (state_after 2 edge_program)).
  split; reflexivity.
Defined.

Example HLT_in_last_cell_raises :
  ram_read (state_after 2 edge_program) (pc (state_after 2 edge_program)) = Ok HLT
  /\ exec 3 edge_program = Raised IndexError.
Proof. split; reflexivity. Qed.

(** The same program with -1 for 255: the [HLT] of cell 255 is fetched
    with the cells 0 and 1 as its operands, and halts the run. *)
Example HLT_in_last_cell_halts_from_minus_one :
  pc (state_after 2 (<[2%nat := -1]> edge_program)) = -1
  /\ exec 3 (<[2%nat := -1]> edge_program)
     = Halted (state_after 2 (<[2%nat := -1]> edge_program)).
Proof. apply conj; vm_compute; reflexivity. Qed.

(** ** Halting *)

Lemma continue_not_Halted (r : res cpu) (s' : cpu) : continue r <> Halted s'.
Proof. destruct r; discriminate. Qed.

Lemma step_Halted_inv (s s' : cpu) :
  step s = Halted s' -> s' = s /\ exists a b, fetch s = Ok (HLT, a, b).
Proof.
  unfold step. destruct (fetch s) as [[[IR a] b] |]; [| discriminate].
  unfold dispatch. destruct (Z.eqb_spec IR HLT) as [-> | _].
  - intros H. injection H as <-. eauto.
  - repeat match goal with
           | |- (if ?c then _ else _) = _ -> _ => destruct c
           end;
      intros H; try discriminate H; exfalso; exact (continue_not_Halted _ _ H).
Qed.

(** X2.  The loop stops only at a [HLT], and stopping changes nothing: when
    a run of at most [n] turns has halted in state [s'], fewer than [n]
    turns lead to [s'] with the loop still going, and the instruction
    fetched in [s'] is [HLT]. *)
Theorem halts_only_at_HLT (n : nat) :
  forall s s' : cpu,
    run_n n s = Halted s' ->
    exists k a b,
      (k < n)%nat /\ run_n k s = Running s' /\ fetch s' = Ok (HLT, a, b).
Proof.
  induction n as [| n IH]; simpl; intros s s' H; [discriminate |].
  destruct (step s) as [s1 | s1 | e] eqn:Es; try discriminate.
  - destruct (IH _ _ H) as (k & a & b & Hk & Hr & Hf).
    exists (S k), a, b. simpl. rewrite Es. repeat split; [lia | assumption ..].
  - injection H as <-. apply step_Halted_inv in Es as [-> (a & b & Hf)].
    exists O, a, b. repeat split; [lia | assumption].
Qed.

Lemma halts_only_at_HLT_witness :
  exists k a b,
    (k < 5)%nat /\
    run_n k (set_ram (add_program 8 9 ++ replicate 244 0) CPU_init)
    = Running (add_program_final 8 9) /\
    fetch (add_program_final 8 9) = Ok (HLT, a, b).
Proof.
  apply (halts_only_at_HLT 5 (set_ram (add_program 8 9 ++ replicate 244 0) CPU_init)).
  reflexivity.
Defined.

(** ** Exceptions *)

(** Splits a hypothesis saying that a chain of reads and writes raised. *)
Ltac raise_inv :=
  repeat match goal with
         | H : bind ?m _ = Raise _ |- _ =>
             let E := fresh "E" in destruct m eqn:E; simpl in H
         | H : (if ?c then _ else _) = Raise _ |- _ => destruct c
         | H : Ok _ = Raise _ |- _ => discriminate H
         | H : Raise _ = Raise _ |- _ => injection H as <-
         | H : getitem _ _ = Raise ?e |- ?e = IndexError =>
             exact (getitem_raises_IndexError _ _ _ H)
         | H : setitem _ _ _ = Raise ?e |- ?e = IndexError =>
             exact (setitem_raises_IndexError _ _ _ _ H)
         end.

Lemma alu_raises (op a b : Z) (s : cpu) (e : exn) :
  alu op a b s = Raise e ->
  e = IndexError \/ (e = UnsupportedALU /\ op <> ADD /\ op <> MUL /\ op <> CMP).
Proof.
  unfold alu, reg_read, reg_write.
  destruct (Z.eqb_spec op ADD); [| destruct (Z.eqb_spec op MUL);
                                   [| destruct (Z.eqb_spec op CMP)]];
    intros H.
  1-3: left; raise_inv.
  right. injection H as <-. auto.
Qed.

Lemma dispatch_raises (IR a b : Z) (s : cpu) (e : exn) :
  dispatch IR a b s = Raised e -> e = IndexError.
Proof.
  unfold dispatch.
  repeat match goal with
         | |- (if ?c then _ else _) = _ -> _ => destruct c
         end;
    try discriminate; unfold continue;
    match goal with
    | |- match ?m with Ok _ => _ | Raise _ => _ end = _ -> _ =>
        destruct m as [t | e'] eqn:Ex; [discriminate |]
    end;
    intros H; injection H as ->.
  - unfold exec_JEQ, reg_read in Ex. raise_inv.
  - unfold exec_JNE, reg_read in Ex. raise_inv.
  - unfold exec_JMP, reg_read in Ex. raise_inv.
  - unfold exec_ALU in Ex. raise_inv.
    destruct (alu_raises _ _ _ _ _ E) as [-> | (_ & _ & _ & Hc)];
      [reflexivity | congruence].
  - unfold exec_CALL, ram_write, reg_read in Ex. simpl in Ex. raise_inv.
  - unfold exec_RET, ram_read in Ex. raise_inv.
  - unfold exec_PUSH, ram_write, reg_read in Ex. simpl in Ex. raise_inv.
  - unfold exec_POP, ram_read, reg_write in Ex. raise_inv.
  - unfold exec_LDI, reg_write in Ex. raise_inv.
  - unfold exec_ALU in Ex. raise_inv.
    destruct (alu_raises _ _ _ _ _ E) as [-> | (_ & _ & Hc & _)];
      [reflexivity | congruence].
  - unfold exec_ALU in Ex. raise_inv.
    destruct (alu_raises _ _ _ _ _ E) as [-> | (_ & Hc & _)];
      [reflexivity | congruence].
  - unfold exec_PRN, reg_read in Ex. raise_inv.
Qed.

Lemma step_raises (s : cpu) (e : exn) : step s = Raised e -> e = IndexError.
Proof.
  unfold step. destruct (fetch s) as [[[IR a] b] | e'] eqn:Ef.
  - apply dispatch_raises.
  - intros H. injection H as ->. unfold fetch, ram_read in Ef. raise_inv.
Qed.

Lemma run_n_raises (n : nat) :
  forall (s : cpu) (e : exn), run_n n s = Raised e -> e = IndexError.
Proof.
  induction n as [| n IH]; simpl; intros s e H; [discriminate |].
  destruct (step s) as [s1 | s1 | e'] eqn:Es; try discriminate.
  - exact (IH _ _ H).
  - injection H as <-. exact (step_raises _ _ Es).
Qed.

Lemma load_from_raises (vals : list Z) :
  forall (address : Z) (s : cpu) (e : exn),
    load_from address vals s = Raise e -> e = IndexError.
Proof.
  induction vals as [| v rest IH]; simpl; intros address s e H; [discriminate |].
  destruct (setitem (ram s) address v) as [m | e'] eqn:E; simpl in H.
  - exact (IH _ _ _ H).
  - injection H as <-. exact (setitem_raises_IndexError _ _ _ _ E).
Qed.

(** X3.  The exception of [alu], "Unsupported ALU operation", is out of
    reach of [run]: loading a list of values into a fresh CPU and running
    it never raises it, whatever the values are, since [run] calls [alu]
    with [ADD], [MUL] and [CMP] only.  (Of the exceptions of the class
    itself; what [print] may raise on its own account is not part of this
    statement.) *)
Theorem run_never_raises_UnsupportedALU (n : nat) (vals : list Z) :
  exec n vals <> Raised UnsupportedALU.
Proof.
  unfold exec, boot, load.
  destruct (load_from 0 vals CPU_init) as [s | e'] eqn:Eb; intros H.
  - pose proof (run_n_raises _ _ _ H). discriminate.
  - injection H as ->. pose proof (load_from_raises _ _ _ _ Eb). discriminate.
Qed.

(** X4.  [alu] raises its own exception for exactly the operations other
    than [ADD], [MUL] and [CMP], whatever the register numbers are: the
    operation is looked at before any register is. *)
Theorem alu_unsupported_operation (op a b : Z) (s : cpu) :
  alu op a b s = Raise UnsupportedALU <-> op <> ADD /\ op <> MUL /\ op <> CMP.
Proof.
  split.
  - intros H. destruct (alu_raises _ _ _ _ _ H) as [E | (_ & Hop)];
      [discriminate | exact Hop].
  - intros (Ha & Hm & Hc). unfold alu.
    apply Z.eqb_neq in Ha, Hm, Hc. rewrite Ha, Hm, Hc. reflexivity.
Qed.

(** ** What a turn leaves alone *)

Lemma undefined_opcode_frame (IR : Z) :
  defined_opcode IR = false -> writes_register IR = false /\ IR <> PRN.
Proof.
  unfold defined_opcode, writes_register. intros H.
  repeat match type of H with
         | _ || _ = false => apply orb_false_elim in H as [H ?]
         end.
  split.
  - repeat (apply orb_false_intro; [| assumption]). assumption.
  - apply Z.eqb_neq. assumption.
Qed.

(** Closes the side conditions of [step_frame] for a known opcode. *)
Ltac frame_side :=
  repeat apply conj; intros;
  repeat match goal with
         | H : writes_register _ = _ |- _ => vm_compute in H
         | H : _ = PRN |- _ => vm_compute in H
         end;
  try discriminate; simpl; try reflexivity; try congruence.

Lemma step_frame (s s' : cpu) (IR a b : Z) :
  fetch s = Ok (IR, a, b) -> step s = Running s' ->
  (writes_register IR = false -> reg s' = reg s) /\
  (IR <> PRN -> stdout s' = stdout s) /\
  (IR = PRN ->
   exists v, reg_read s a = Ok v /\ stdout s' = (stdout s ++ print_line v)%string).
Proof.
  intros Hf Hs. unfold step in Hs. rewrite Hf in Hs.
  apply dispatch_Running in Hs.
  repeat match type of Hs with
         | _ \/ _ => destruct Hs as [[-> Hx] | Hs]
         end.
  - apply exec_JEQ_Ok in Hx as (v & -> & _). frame_side.
  - apply exec_JNE_Ok in Hx as (v & -> & _). frame_side.
  - apply exec_JMP_Ok in Hx as (v & _ & ->). frame_side.
  - apply exec_ALU_Ok in Hx as (s1 & Hx & ->).
    apply alu_CMP_Ok in Hx as (x & y & _ & _ & ->). frame_side.
  - apply exec_CALL_Ok in Hx as (m & v & Hm & _ & ->). frame_side.
  - apply exec_RET_Ok in Hx as (popped & _ & ->). frame_side.
  - apply exec_PUSH_Ok in Hx as (v & m & _ & Hm & ->). frame_side.
  - apply exec_POP_Ok in Hx as (popped & r & _ & _ & ->). frame_side.
  - apply exec_LDI_Ok in Hx as (r & _ & ->). frame_side.
  - apply exec_ALU_Ok in Hx as (s1 & Hx & ->).
    apply alu_MUL_Ok in Hx as (x & y & r & _ & _ & _ & ->). frame_side.
  - apply exec_ALU_Ok in Hx as (s1 & Hx & ->).
    apply alu_ADD_Ok in Hx as (x & y & r & _ & _ & _ & ->). frame_side.
  - apply exec_PRN_Ok in Hx as (v & Hv & ->). frame_side.
    exists v. split; [exact Hv | reflexivity].
  - destruct Hs as [Hd ->].
    destruct (undefined_opcode_frame IR Hd) as (Hw & Hp).
    repeat apply conj; intros; try reflexivity. contradiction.
Qed.

Lemma string_app_nil_r (t : string) : (t ++ "")%string = t.
Proof. induction t as [| c t IH]; simpl; [| rewrite IH]; reflexivity. Qed.

Lemma string_app_assoc (t u v : string) :
  ((t ++ u) ++ v)%string = (t ++ (u ++ v))%string.
Proof. induction t as [| c t IH]; simpl; [| rewrite IH]; reflexivity. Qed.

(** X5.  Standard output is only ever appended to, and only by [PRN]: after
    any number of turns the text written so far starts with the text
    written before them, and it is the same text when none of the
    instructions executed was a [PRN]. *)
Theorem output_only_appended (n : nat) :
  forall s s' : cpu,
    run_n n s = Running s' ->
    (exists t, stdout s' = (stdout s ++ t)%string) /\
    (forallb (fun IR => negb (IR =? PRN)) (ops n s) = true ->
     stdout s' = stdout s).
Proof.
  induction n as [| n IH]; intros s s' H.
  - injection H as <-. split; [| reflexivity].
    exists EmptyString. symmetry. apply string_app_nil_r.
  - destruct (run_n_S_Running n s s' H) as (IR & a & b & s1 & Hf & Hs & Hr & ->).
    destruct (IH s1 s' Hr) as [[t Ht] Hsame].
    destruct (step_frame s s1 IR a b Hf Hs) as (_ & Hne & Heq).
    split.
    + destruct (Z.eq_dec IR PRN) as [E | E].
      * destruct (Heq E) as (v & _ & Hv). exists (print_line v ++ t)%string.
        rewrite Ht, Hv. apply string_app_assoc.
      * exists t. rewrite Ht, (Hne E). reflexivity.
    + simpl. intros Hall. apply andb_prop in Hall as [Hhd Htl].
      rewrite (Hsame Htl). apply Hne. apply Z.eqb_neq.
      destruct (IR =? PRN); [discriminate | reflexivity].
Qed.

Lemma output_only_appended_witness :
  (exists t,
     stdout (add_program_final 8 9)
     = (stdout (set_ram (add_program 8 9 ++ replicate 244 0) CPU_init) ++ t)%string) /\
  (forallb (fun IR => negb (IR =? PRN))
     (ops 4 (set_ram (add_program 8 9 ++ replicate 244 0) CPU_init)) = true ->
   stdout (add_program_final 8 9)
   = stdout (set_ram (add_program 8 9 ++ replicate 244 0) CPU_init)).
Proof.
  apply (output_only_appended 4
           (set_ram (add_program 8 9 ++ replicate 244 0) CPU_init)).
  reflexivity.
Defined.

(** X6.  Memory is written by [PUSH] and [CALL] alone, and registers by
    [LDI], [POP], [ADD] and [MUL] alone: turns that execute none of the
    former leave every cell of the memory as it was, and turns that execute
    none of the latter leave every register as it was.  There is no store
    instruction, so a program without [PUSH] and [CALL] cannot change
    itself. *)
Theorem writes_are_confined (n : nat) :
  forall s s' : cpu,
    run_n n s = Running s' ->
    (forallb (fun IR => negb (pushes IR)) (ops n s) = true -> ram s' = ram s) /\
    (forallb (fun IR => negb (writes_register IR)) (ops n s) = true ->
     reg s' = reg s).
Proof.
  induction n as [| n IH]; intros s s' H.
  - injection H as <-. split; reflexivity.
  - destruct (run_n_S_Running n s s' H) as (IR & a & b & s1 & Hf & Hs & Hr & ->).
    destruct (IH s1 s' Hr) as [Hram Hreg].
    destruct (step_effect s s1 IR a b Hf Hs) as (_ & _ & _ & Hm & _).
    destruct (step_frame s s1 IR a b Hf Hs) as (Hg & _).
    split; simpl; intros Hall; apply andb_prop in Hall as [Hhd Htl].
    + rewrite (Hram Htl). apply Hm.
      destruct (pushes IR); [discriminate | reflexivity].
    + rewrite (Hreg Htl). apply Hg.
      destruct (writes_register IR); [discriminate | reflexivity].
Qed.

Lemma writes_are_confined_witness :
  (forallb (fun IR => negb (pushes IR))
     (ops 4 (set_ram (add_program 8 9 ++ replicate 244 0) CPU_init)) = true ->
   ram (add_program_final 8 9)
   = ram (set_ram (add_program 8 9 ++ replicate 244 0) CPU_init)) /\
  (forallb (fun IR => negb (writes_register IR))
     (ops 4 (set_ram (add_program 8 9 ++ replicate 244 0) CPU_init)) = true ->
   reg (add_program_final 8 9)
   = reg (set_ram (add_program 8 9 ++ replicate 244 0) CPU_init)).
Proof.
  apply (writes_are_confined 4
           (set_ram (add_program 8 9 ++ replicate 244 0) CPU_init)).
  reflexivity.
Defined.

(** ** Values that stay non-negative *)

Lemma getitem_Forall (P : Z -> Prop) (l : list Z) (i v : Z) :
  Forall P l -> getitem l i = Ok v -> P v.
Proof.
  intros Hl H. apply getitem_Ok_inv in H as [_ H].
  exact (Forall_lookup_1 P l _ v Hl H).
Qed.

Lemma setitem_Forall (P : Z -> Prop) (l : list Z) (i v : Z) (l' : list Z) :
  Forall P l -> P v -> setitem l i v = Ok l' -> Forall P l'.
Proof.
  intros Hl Hv H. apply setitem_Ok_inv in H as [_ ->].
  apply Forall_insert; assumption.
Qed.

Lemma step_nonneg (s s' : cpu) :
  nonneg_state s -> step s = Running s' -> nonneg_state s'.
Proof.
  intros (Hm & Hr & Hpc) Hs.
  destruct (step_Running s s' Hs) as (IR & a & b & Hf & Hd).
  destruct (fetch_Ok_inv s IR a b Hf) as (_ & Ha & Hb).
  pose proof (getitem_Forall _ _ _ _ Hm Hb) as Hb0.
  apply dispatch_Running in Hd.
  repeat match type of Hd with
         | _ \/ _ => destruct Hd as [[-> Hx] | Hd]
         end.
  - apply exec_JEQ_Ok in Hx as (v & -> & Hv). repeat apply conj; simpl; try assumption.
    destruct (fl s =? 1); [exact (getitem_Forall _ _ _ _ Hr Hv) | lia].
  - apply exec_JNE_Ok in Hx as (v & -> & Hv). repeat apply conj; simpl; try assumption.
    destruct (fl s =? 1); [lia | exact (getitem_Forall _ _ _ _ Hr Hv)].
  - apply exec_JMP_Ok in Hx as (v & Hv & ->). repeat apply conj; simpl; try assumption.
    exact (getitem_Forall _ _ _ _ Hr Hv).
  - apply exec_ALU_Ok in Hx as (s1 & Hx & ->).
    apply alu_CMP_Ok in Hx as (x & y & _ & _ & ->).
    repeat apply conj; simpl; try assumption. lia.
  - apply exec_CALL_Ok in Hx as (m & v & Hw & Hv & ->).
    repeat apply conj; simpl; try assumption.
    + apply (setitem_Forall _ _ _ _ _ Hm) in Hw; [exact Hw | lia].
    + exact (getitem_Forall _ _ _ _ Hr Hv).
  - apply exec_RET_Ok in Hx as (popped & Hp & ->).
    repeat apply conj; simpl; try assumption.
    exact (getitem_Forall _ _ _ _ Hm Hp).
  - apply exec_PUSH_Ok in Hx as (v & m & Hv & Hw & ->).
    repeat apply conj; simpl; try assumption; [| lia].
    apply (setitem_Forall _ _ _ _ _ Hm) in Hw; [exact Hw |].
    exact (getitem_Forall _ _ _ _ Hr Hv).
  - apply exec_POP_Ok in Hx as (popped & r & Hp & Hw & ->).
    repeat apply conj; simpl; try assumption; [| lia].
    apply (setitem_Forall _ _ _ _ _ Hr) in Hw; [exact Hw |].
    exact (getitem_Forall _ _ _ _ Hm Hp).
  - apply exec_LDI_Ok in Hx as (r & Hw & ->).
    repeat apply conj; simpl; try assumption; [| lia].
    exact (setitem_Forall _ _ _ _ _ Hr Hb0 Hw).
  - apply exec_ALU_Ok in Hx as (s1 & Hx & ->).
    apply alu_MUL_Ok in Hx as (x & y & r & Hx & Hy & Hw & ->).
    repeat apply conj; simpl; try assumption; [| lia].
    apply (setitem_Forall _ _ _ _ _ Hr) in Hw; [exact Hw |].
    pose proof (getitem_Forall _ _ _ _ Hr Hx).
    pose proof (getitem_Forall _ _ _ _ Hr Hy). simpl in *. nia.
  - apply exec_ALU_Ok in Hx as (s1 & Hx & ->).
    apply alu_ADD_Ok in Hx as (x & y & r & Hx & Hy & Hw & ->).
    repeat apply conj; simpl; try assumption; [| lia].
    apply (setitem_Forall _ _ _ _ _ Hr) in Hw; [exact Hw |].
    pose proof (getitem_Forall _ _ _ _ Hr Hx).
    pose proof (getitem_Forall _ _ _ _ Hr Hy). simpl in *. lia.
  - apply exec_PRN_Ok in Hx as (v & _ & ->).
    repeat apply conj; simpl; try assumption. lia.
  - destruct Hd as [_ ->]. repeat apply conj; assumption.
Qed.

Lemma run_n_nonneg (n : nat) :
  forall s s' : cpu, nonneg_state s -> run_n n s = Running s' -> nonneg_state s'.
Proof.
  induction n as [| n IH]; simpl; intros s s' Hs H.
  - injection H as <-. exact Hs.
  - destruct (step s) as [t | t | e] eqn:E; try discriminate.
    exact (IH _ _ (step_nonneg _ _ Hs E) H).
Qed.

Lemma load_from_nonneg (vals : list Z) :
  forall (address : Z) (s s' : cpu),
    Forall (Z.le 0) vals -> nonneg_state s ->
    load_from address vals s = Ok s' -> nonneg_state s'.
Proof.
  induction vals as [| v rest IH]; simpl; intros address s s' Hv Hs H.
  - injection H as <-. exact Hs.
  - bind_inv H. apply Forall_cons in Hv as [Hv Hrest].
    apply (IH _ _ _ Hrest) in H; [exact H |].
    destruct Hs as (Hm & Hr & Hpc). repeat apply conj; simpl; try assumption.
    exact (setitem_Forall _ _ _ _ _ Hm Hv E).
Qed.

(** X7.  No instruction makes a negative number out of non-negative ones,
    the stack pointer apart: when the values of a program are non-negative,
    every state the loop reaches has non-negative memory cells, registers
    and program counter.  So in such a run no operand byte names a register
    from the far end, and no jump goes to a negative address. *)
Theorem values_stay_nonnegative (n : nat) (vals : list Z) (s0 s : cpu) :
  Forall (Z.le 0) vals ->
  boot vals = Ok s0 -> run_n n s0 = Running s ->
  nonneg_state s /\
  (forall IR a b, fetch s = Ok (IR, a, b) -> 0 <= IR /\ 0 <= a /\ 0 <= b).
Proof.
  intros Hv Hb Hr.
  assert (Hs : nonneg_state s).
  { apply (run_n_nonneg n s0 s); [| exact Hr].
    apply (load_from_nonneg vals 0 CPU_init s0 Hv); [| exact Hb].
    repeat apply conj.
    - change (ram CPU_init) with (replicate 256 0). apply Forall_replicate. lia.
    - change (reg CPU_init) with (replicate 8 0). apply Forall_replicate. lia.
    - simpl. lia. }
  split; [exact Hs |].
  intros IR a b Hf. destruct Hs as (Hm & _).
  destruct (fetch_Ok_inv s IR a b Hf) as (H0 & H1 & H2).
  repeat apply conj; eapply getitem_Forall; eassumption.
Qed.

Lemma values_stay_nonnegative_witness :
  nonneg_state (state_after 3 push_pop_program) /\
  (forall IR a b,
     fetch (state_after 3 push_pop_program) = Ok (IR, a, b) ->
     0 <= IR /\ 0 <= a /\ 0 <= b).
Proof.
  apply (values_stay_nonnegative 3 push_pop_program
           (set_ram (push_pop_program ++ replicate 248 0) CPU_init)).
  - repeat constructor; vm_compute; discriminate.
  - reflexivity.
  - reflexivity.
Defined.

Example stack_pointer_goes_negative :
  Forall (Z.le 0) wrap_program /\ sp (state_after 520 wrap_program) = -9.
Proof.
  split; [| vm_compute; reflexivity].
  apply Forall_forall. intros x Hx. unfold wrap_program in Hx.
  repeat (apply elem_of_app in Hx as [Hx | Hx]);
    try (apply elem_of_replicate in Hx as [-> _]; lia);
    repeat (apply elem_of_cons in Hx as [-> | Hx]; [vm_compute; discriminate |]);
    apply elem_of_nil in Hx; contradiction.
Qed.

(** ** The stack, the other way round *)

(** X8.  [POP] followed by [PUSH] of the same register puts back what was
    there.  A [POP] into register [a], executed with the stack pointer on
    a cell of the memory, leaves the state [s1] in which register [a] holds
    the content of that cell, the stack pointer is one more and the program
    counter has moved on by 2, nothing else being changed; and when the
    next instruction, in [s1], is a [PUSH] of register [a], it is executed
    and leaves memory and stack pointer as they were before the [POP], the
    registers as in [s1] and the program counter moved on by 2 again. *)
Theorem pop_push_restores (s : cpu) (a o : Z) :
  wf s ->
  fetch s = Ok (POP, a, o) ->
  -256 <= sp s < 256 ->
  -8 <= a < 8 ->
  exists popped s1,
    ram_read s (sp s) = Ok popped /\
    step s = Running s1 /\
    s1 = mkCPU (ram s) (<[cell_of 8 a := popped]> (reg s)) (pc s + 2) (fl s)
               (sp s + 1) (stdout s) /\
    reg_read s1 a = Ok popped /\ sp s1 = sp s + 1 /\ pc s1 = pc s + 2 /\
    forall o',
      fetch s1 = Ok (PUSH, a, o') ->
      exists s2,
        step s1 = Running s2 /\
        s2 = mkCPU (ram s) (reg s1) (pc s + 4) (fl s) (sp s) (stdout s) /\
        ram s2 = ram s /\ sp s2 = sp s.
Proof.
  intros [Hm Hr] Hf Hsp Ha.
  destruct (getitem_inside (ram s) (sp s)) as (popped & Hp & Hcell);
    [rewrite Hm; lia |].
  pose proof (setitem_inside (reg s) a popped) as Hreg.
  rewrite Hr in Hreg. specialize (Hreg Ha).
  exists popped,
    (mkCPU (ram s) (<[cell_of 8 a := popped]> (reg s)) (pc s + 2) (fl s)
           (sp s + 1) (stdout s)).
  split; [exact Hp |].
  split; [exact (step_POP s a o popped _ Hf Hp Hreg) |].
  split; [reflexivity |].
  split; [exact (getitem_setitem_same _ _ _ _ Hreg) |].
  split; [reflexivity |]. split; [reflexivity |].
  intros o' Hf1.
  exists (mkCPU (ram s) (<[cell_of 8 a := popped]> (reg s)) (pc s + 4) (fl s)
                (sp s) (stdout s)).
  split; [| split; [reflexivity | split; reflexivity]].
  rewrite (step_PUSH _ a o' popped (ram s) Hf1).
  - simpl. f_equal. f_equal; lia.
  - exact (getitem_setitem_same _ _ _ _ Hreg).
  - simpl. replace (sp s + 1 - 1) with (sp s) by lia.
    rewrite setitem_inside by (rewrite Hm; lia).
    rewrite list_insert_id by exact Hcell. reflexivity.
Qed.

Lemma pop_push_restores_witness :
  exists popped s1,
    ram_read pop_state (sp pop_state) = Ok popped /\
    step pop_state = Running s1 /\
    s1 = mkCPU (ram pop_state) (<[cell_of 8 1 := popped]> (reg pop_state))
               (pc pop_state + 2) (fl pop_state) (sp pop_state + 1)
               (stdout pop_state) /\
    reg_read s1 1 = Ok popped /\ sp s1 = sp pop_state + 1 /\
    pc s1 = pc pop_state + 2 /\
    forall o',
      fetch s1 = Ok (PUSH, 1, o') ->
      exists s2,
        step s1 = Running s2 /\
        s2 = mkCPU (ram pop_state) (reg s1) (pc pop_state + 4) (fl pop_state)
                   (sp pop_state) (stdout pop_state) /\
        ram s2 = ram pop_state /\ sp s2 = sp pop_state.
Proof.
  apply (pop_push_restores pop_state 1 PUSH).
  - split; reflexivity.
  - reflexivity.
  - simpl. lia.
  - lia.
Defined.

(** ** When a turn fails *)

Lemma getitem_cases (l : list Z) (i : Z) (n : Z) :
  Z.of_nat (length l) = n ->
  (valid_index n i = true /\ exists v, getitem l i = Ok v) \/
  (valid_index n i = false /\ getitem l i = Raise IndexError).
Proof.
  intros <-. unfold valid_index.
  destruct (Z.leb_spec (- Z.of_nat (length l)) i);
    [destruct (Z.ltb_spec i (Z.of_nat (length l))) |]; simpl.
  - left. destruct (getitem_inside l i) as (v & Hv & _); [lia | eauto].
  - right. rewrite getitem_outside by lia. auto.
  - right. rewrite getitem_outside by lia. auto.
Qed.

Lemma setitem_cases (l : list Z) (i v : Z) (n : Z) :
  Z.of_nat (length l) = n ->
  (valid_index n i = true /\ exists l', setitem l i v = Ok l') \/
  (valid_index n i = false /\ setitem l i v = Raise IndexError).
Proof.
  intros <-. unfold valid_index.
  destruct (Z.leb_spec (- Z.of_nat (length l)) i);
    [destruct (Z.ltb_spec i (Z.of_nat (length l))) |]; simpl.
  - left. rewrite setitem_inside by lia. eauto.
  - right. rewrite setitem_outside by lia. auto.
  - right. rewrite setitem_outside by lia. auto.
Qed.

(** Runs the reads and writes of a branch, one after the other, recording
    for each whether its index was valid. *)
Ltac run_branch Hm Hr :=
  repeat (simpl;
          match goal with
          | |- context [getitem (ram ?s) ?i] =>
              let V := fresh "V" in let E := fresh "E" in let v := fresh "v" in
              destruct (getitem_cases (ram s) i 256 ltac:(rewrite Hm; reflexivity))
                as [[V [v E]] | [V E]]; rewrite E
          | |- context [getitem (reg ?s) ?i] =>
              let V := fresh "V" in let E := fresh "E" in let v := fresh "v" in
              destruct (getitem_cases (reg s) i 8 ltac:(rewrite Hr; reflexivity))
                as [[V [v E]] | [V E]]; rewrite E
          | |- context [setitem (ram ?s) ?i ?x] =>
              let V := fresh "V" in let E := fresh "E" in let m := fresh "m" in
              destruct (setitem_cases (ram s) i x 256 ltac:(rewrite Hm; reflexivity))
                as [[V [m E]] | [V E]]; rewrite E
          | |- context [setitem (reg ?s) ?i ?x] =>
              let V := fresh "V" in let E := fresh "E" in let r := fresh "r" in
              destruct (setitem_cases (reg s) i x 8 ltac:(rewrite Hr; reflexivity))
                as [[V [r E]] | [V E]]; rewrite E
          | |- context [if ?c then Ok _ else _] => destruct c
          end);
  simpl;
  repeat match goal with
         | V : valid_index _ _ = _ |- _ => rewrite V in *; clear V
         end;
  repeat match goal with
         | |- context [valid_index ?n ?i] => destruct (valid_index n i)
         end;
  simpl; split; intros; congruence.

(** X9.  A turn whose fetch succeeds raises exactly when a register number
    it uses is outside -8..7 or the stack index it uses is outside
    -256..255, where [PUSH] and [CALL] use the cell below the stack pointer
    and [POP] and [RET] the cell at it.  Nothing else is checked: the stack
    pointer is not compared with its initial value or with the end of the
    program, so a [POP] on an empty stack succeeds. *)
Theorem turn_raises_iff (s : cpu) (IR a b : Z) :
  wf s ->
  fetch s = Ok (IR, a, b) ->
  (step s = Raised IndexError <-> turn_is_safe IR a b s = false).
Proof.
  intros [Hm Hr] Hf. unfold step. rewrite Hf. clear Hf.
  unfold dispatch, turn_is_safe, stack_index, selects_operand_a,
    selects_operand_b, pushes, pops.
  repeat match goal with
         | |- context [if ?x =? ?y then _ else _] =>
             destruct (Z.eqb_spec x y) as [-> | ?]
         end.
  14: { repeat match goal with
               | Hne : ?x <> ?y |- _ =>
                   apply Z.eqb_neq in Hne; rewrite Hne; clear Hne
               end.
        simpl. split; discriminate. }
  1: { simpl. split; discriminate. }
  all: unfold continue, exec_JEQ, exec_JNE, exec_JMP, exec_ALU, exec_CALL,
         exec_RET, exec_PUSH, exec_POP, exec_LDI, exec_PRN, alu, ram_write,
         reg_write, ram_read, reg_read.
  - destruct (fl s =? 1); run_branch Hm Hr.
  - destruct (fl s =? 1); run_branch Hm Hr.
  - run_branch Hm Hr.
  - run_branch Hm Hr.
  - run_branch Hm Hr.
  - run_branch Hm Hr.
  - run_branch Hm Hr.
  - run_branch Hm Hr.
  - run_branch Hm Hr.
  - run_branch Hm Hr.
  - run_branch Hm Hr.
  - run_branch Hm Hr.
Qed.

Lemma turn_raises_iff_witness :
  step pop_state = Raised IndexError <-> turn_is_safe POP 1 PUSH pop_state = false.
Proof.
  apply (turn_raises_iff pop_state POP 1 PUSH).
  - split; reflexivity.
  - reflexivity.
Defined.

Example POP_on_empty_stack :
  exec 1 [POP; 0; HLT]
  = Running (mkCPU ([POP; 0; HLT] ++ replicate 253 0) (replicate 8 0) 2 0 0xF5
                   EmptyString).
Proof. vm_compute. reflexivity. Qed.

(** ** The length of an instruction *)

Lemma undefined_opcode_jumps (IR f : Z) :
  defined_opcode IR = false -> jumps IR f = false.
Proof.
  unfold defined_opcode, jumps. intros H.
  repeat match type of H with
         | _ || _ = false => apply orb_false_elim in H as [H ?]
         end.
  repeat match goal with
         | E : (_ =? _) = false |- _ => rewrite E; clear E
         end.
  reflexivity.
Qed.

(** Evaluates the tests on a known opcode in the goal. *)
Ltac advance_side :=
  match goal with
  | |- context [defined_opcode ?op] =>
      let d := eval vm_compute in (defined_opcode op) in
      let c := eval vm_compute in (operand_count op) in
      change (defined_opcode op) with d; change (operand_count op) with c
  end;
  simpl; lia.

(** X10.  An instruction that does not jump moves the program counter past
    itself and its operands, as many as the two high bits of the
    instruction byte announce: by 3 after [LDI], [ADD], [MUL] and [CMP], by
    2 after [PUSH], [POP], [PRN] and a conditional jump not taken.  A byte
    that is no instruction moves it by nothing. *)
Theorem program_counter_advance (s s' : cpu) (IR a b : Z) :
  fetch s = Ok (IR, a, b) ->
  step s = Running s' ->
  jumps IR (fl s) = false ->
  pc s' = if defined_opcode IR then pc s + 1 + operand_count IR else pc s.
Proof.
  intros Hf Hs Hj. unfold step in Hs. rewrite Hf in Hs.
  apply dispatch_Running in Hs.
  repeat match type of Hs with
         | _ \/ _ => destruct Hs as [[-> Hx] | Hs]
         end.
  - apply exec_JEQ_Ok in Hx as (v & -> & Hv).
    unfold jumps in Hj. simpl in Hj. destruct (fl s =? 1); [discriminate |].
    advance_side.
  - apply exec_JNE_Ok in Hx as (v & -> & Hv).
    unfold jumps in Hj. simpl in Hj. destruct (fl s =? 1); [| discriminate].
    advance_side.
  - discriminate.
  - apply exec_ALU_Ok in Hx as (s1 & Hx & ->).
    apply alu_CMP_Ok in Hx as (x & y & _ & _ & ->). advance_side.
  - discriminate.
  - discriminate.
  - apply exec_PUSH_Ok in Hx as (v & m & _ & _ & ->). advance_side.
  - apply exec_POP_Ok in Hx as (popped & r & _ & _ & ->). advance_side.
  - apply exec_LDI_Ok in Hx as (r & _ & ->). advance_side.
  - apply exec_ALU_Ok in Hx as (s1 & Hx & ->).
    apply alu_MUL_Ok in Hx as (x & y & r & _ & _ & _ & ->). advance_side.
  - apply exec_ALU_Ok in Hx as (s1 & Hx & ->).
    apply alu_ADD_Ok in Hx as (x & y & r & _ & _ & _ & ->). advance_side.
  - apply exec_PRN_Ok in Hx as (v & _ & ->). advance_side.
  - destruct Hs as [Hd ->]. rewrite Hd. reflexivity.
Qed.

Lemma program_counter_advance_witness :
  pc (state_after 1 push_pop_program)
  = if defined_opcode LDI
    then pc (state_after 0 push_pop_program) + 1 + operand_count LDI
    else pc (state_after 0 push_pop_program).
Proof.
  apply (program_counter_advance (state_after 0 push_pop_program)
           (state_after 1 push_pop_program) LDI 0 42).
  - reflexivity.
  - reflexivity.
  - reflexivity.
Defined.

(** * The loader *)

(** ** Where [load] puts the values *)

Lemma set_ram_same (s : cpu) : set_ram (ram s) s = s.
Proof. destruct s; reflexivity. Qed.

Lemma cell_of_of_nat (n k : nat) : cell_of n (Z.of_nat k) = k.
Proof.
  unfold cell_of. destruct (Z.ltb_spec (Z.of_nat k) 0); [lia |].
  apply Nat2Z.id.
Qed.

Lemma load_from_inside (vals : list Z) :
  forall (k : nat) (s : cpu),
    (k + length vals <= length (ram s))%nat ->
    load_from (Z.of_nat k) vals s
    = Ok (set_ram (take k (ram s) ++ vals ++ drop (k + length vals) (ram s)) s).
Proof.
  induction vals as [| v rest IH]; simpl; intros k s Hk.
  - rewrite Nat.add_0_r, take_drop, set_ram_same. reflexivity.
  - rewrite setitem_inside by lia. simpl.
    replace (Z.of_nat k + 1) with (Z.of_nat (S k)) by lia.
    rewrite cell_of_of_nat.
    rewrite IH by (simpl; rewrite length_insert; lia).
    f_equal. unfold set_ram. simpl. f_equal.
    destruct (lookup_lt_is_Some_2 (ram s) k ltac:(lia)) as [x Hx].
    rewrite (take_S_r (<[k:=v]> (ram s)) k v)
      by (apply list_lookup_insert_eq; lia).
    rewrite take_insert_ge by lia.
    rewrite drop_insert_lt by lia.
    rewrite <- app_assoc. simpl.
    replace (S (k + length rest)) with (k + S (length rest))%nat by lia.
    reflexivity.
Qed.

Lemma load_from_overflow (vals : list Z) :
  forall (k : nat) (s : cpu),
    (k <= length (ram s) < k + length vals)%nat ->
    load_from (Z.of_nat k) vals s = Raise IndexError.
Proof.
  induction vals as [| v rest IH]; simpl; intros k s Hk; [lia |].
  destruct (Nat.eq_dec k (length (ram s))) as [E | E].
  - rewrite setitem_outside by lia. reflexivity.
  - rewrite setitem_inside by lia. simpl.
    replace (Z.of_nat k + 1) with (Z.of_nat (S k)) by lia.
    apply IH. simpl. rewrite length_insert. lia.
Qed.

(** X11.  [load] stores the values of a program in the cells from 0 on and
    leaves the cells after them as they were; it checks no length of its
    own, so a program of more than 256 values raises [IndexError] at its
    257th value. *)
Theorem load_layout (vals : list Z) (s : cpu) :
  wf s ->
  load vals s
  = if (length vals <=? 256)%nat
    then Ok (set_ram (vals ++ drop (length vals) (ram s)) s)
    else Raise IndexError.
Proof.
  intros [Hm _]. unfold load. change 0 with (Z.of_nat 0).
  destruct (Nat.leb_spec (length vals) 256).
  - rewrite load_from_inside by (simpl; lia). reflexivity.
  - apply load_from_overflow. lia.
Qed.

Lemma load_layout_witness :
  load print8_values CPU_init
  = if (length print8_values <=? 256)%nat
    then Ok (set_ram (print8_values ++ drop (length print8_values) (ram CPU_init))
               CPU_init)
    else Raise IndexError.
Proof. apply (load_layout print8_values CPU_init). split; reflexivity. Defined.

Example load_257_values_raises :
  boot (replicate 257 HLT) = Raise IndexError
  /\ exists s, boot (replicate 256 HLT) = Ok s.
Proof.
  apply conj; [vm_compute; reflexivity |].
  exists (set_ram (replicate 256 HLT) CPU_init). vm_compute. reflexivity.
Qed.

(** ** Reading the lines of the program file *)

(** X12.  When every line of the program file can be read, loading the
    file is loading the list of the values its lines hold: the lines
    without a value take no cell, and the text plays no further part. *)
Theorem load_program_values (program : list string) (vals : list Z) (s : cpu) :
  parse_all program = Done vals ->
  load_program program s = lift (load vals s).
Proof.
  unfold load_program, load. generalize 0 as address.
  revert vals s.
  induction program as [| line rest IH]; simpl; intros vals s address H.
  - injection H as <-. reflexivity.
  - destruct (parse_line line) as [[v |] | e]; simpl in *; [| | discriminate].
    + destruct (parse_all rest) as [vs | e] eqn:Er; simpl in H; [| discriminate].
      injection H as <-. simpl.
      destruct (setitem (ram s) address v) as [m | e]; simpl; [| reflexivity].
      apply IH. reflexivity.
    + destruct (parse_all rest) as [vs | e] eqn:Er; simpl in H; [| discriminate].
      injection H as <-. apply IH. reflexivity.
Qed.

Lemma load_program_values_witness :
  load_program print8_file CPU_init = lift (load print8_values CPU_init).
Proof.
  apply (load_program_values print8_file print8_values CPU_init).
  reflexivity.
Defined.

Example print8_file_prints_8 :
  exists s,
    load_program print8_file CPU_init = Done s /\
    emitted (run_n 3 s) = Some ("8" ++ newline)%string.
Proof.
  exists (set_ram (print8_values ++ replicate 250 0) CPU_init).
  apply conj; vm_compute; reflexivity.
Qed.

(** *** White space and comments *)

Lemma all_space_lstrip (t : string) : all_space (lstrip t) = all_space t.
Proof.
  induction t as [| c t IH]; simpl; [reflexivity |].
  destruct (is_space c) eqn:E; simpl; [exact IH | rewrite E; reflexivity].
Qed.

Lemma rstrip_empty (t : string) :
  rstrip t = EmptyString <-> all_space t = true.
Proof.
  induction t as [| c t IH]; simpl; [tauto |].
  destruct (rstrip t) as [| k kept].
  - destruct (is_space c); simpl; [tauto |].
    split; discriminate.
  - split; [discriminate |]. intros H. apply andb_prop in H as [_ H].
    apply IH in H. discriminate.
Qed.

Lemma strip_empty (t : string) : strip t = EmptyString <-> all_space t = true.
Proof. unfold strip. rewrite rstrip_empty, all_space_lstrip. tauto. Qed.

Lemma parse_line_None (line : string) :
  parse_line line = Done None <-> all_space (before_hash line) = true.
Proof.
  rewrite <- strip_empty. unfold parse_line.
  destruct (strip (before_hash line)) as [| c t]; [tauto |].
  destruct (int2 (String c t)); split; discriminate.
Qed.

(** X13.  A line with nothing but white space before its first [#], or
    with nothing but white space at all, is skipped: it stores nothing and
    takes no address, so removing it from anywhere in the program file
    changes nothing of what [load] does. *)
Theorem blank_lines_are_skipped (line : string) (before after : list string) :
  all_space (before_hash line) = true ->
  forall (address : Z) (s : cpu),
    load_lines address (before ++ line :: after) s
    = load_lines address (before ++ after) s.
Proof.
  intros Hline. apply parse_line_None in Hline.
  induction before as [| l rest IH]; simpl; intros address s.
  - rewrite Hline. reflexivity.
  - destruct (parse_line l) as [[v |] | e]; simpl; [| apply IH | reflexivity].
    destruct (setitem (ram s) address v) as [m | e]; simpl; [apply IH | reflexivity].
Qed.

Lemma blank_lines_are_skipped_witness :
  load_lines 0 (["10000010"%string] ++ "   # LDI R0,8"%string
                                    :: ["00000000"%string]) CPU_init
  = load_lines 0 (["10000010"%string] ++ ["00000000"%string]) CPU_init.
Proof.
  apply (blank_lines_are_skipped "   # LDI R0,8" ["10000010"%string]
           ["00000000"%string]).
  reflexivity.
Defined.

(** *** Lines of binary digits *)

Lemma is_space_not_hash (c : ascii) :
  is_space c = true -> (c =? "#")%char = false.
Proof.
  intros H. destruct (Ascii.eqb_spec c "#") as [-> | _]; [| reflexivity].
  vm_compute in H. discriminate.
Qed.

Lemma before_hash_app_space (w u : string) :
  all_space w = true -> before_hash (w ++ u) = (w ++ before_hash u)%string.
Proof.
  induction w as [| c w IH]; simpl; intros H; [reflexivity |].
  apply andb_prop in H as [Hc Hw].
  rewrite (is_space_not_hash c Hc), (IH Hw). reflexivity.
Qed.

Lemma before_hash_app_bits (bs : list bool) (u : string) :
  before_hash (bits_string bs ++ u) = (bits_string bs ++ before_hash u)%string.
Proof.
  induction bs as [| b bs IH]; simpl; [reflexivity |].
  rewrite IH. destruct b; reflexivity.
Qed.

Lemma lstrip_app_space (w u : string) :
  all_space w = true -> lstrip (w ++ u) = lstrip u.
Proof.
  induction w as [| c w IH]; simpl; intros H; [reflexivity |].
  apply andb_prop in H as [Hc Hw]. rewrite Hc. exact (IH Hw).
Qed.

Lemma rstrip_app_space (u w : string) :
  all_space w = true -> rstrip (u ++ w) = rstrip u.
Proof.
  intros Hw. induction u as [| c u IH]; simpl.
  - apply rstrip_empty. exact Hw.
  - rewrite IH. reflexivity.
Qed.

Lemma rstrip_bits (bs : list bool) : rstrip (bits_string bs) = bits_string bs.
Proof.
  induction bs as [| b bs IH]; simpl; [reflexivity |].
  rewrite IH. destruct (bits_string bs); destruct b; reflexivity.
Qed.

Lemma int2_digits_bits (bs : list bool) :
  forall acc : Z,
    int2_digits false acc (bits_string bs) = Some (bits_value acc bs).
Proof.
  induction bs as [| b bs IH]; simpl; intros acc; [reflexivity |].
  destruct b; simpl; apply IH.
Qed.

Lemma int2_bits (bs : list bool) :
  bs <> [] -> int2 (bits_string bs) = Some (bits_value 0 bs).
Proof.
  destruct bs as [| b bs]; [congruence |]. intros _.
  pose proof (int2_digits_bits (b :: bs) 0) as H.
  unfold int2.
  assert (Hs : int2_sign (bits_string (b :: bs)) = (false, bits_string (b :: bs)))
    by (destruct b; reflexivity).
  rewrite Hs.
  assert (Hp : int2_prefix (bits_string (b :: bs)) = bits_string (b :: bs))
    by (destruct b, bs as [| [] bs]; reflexivity).
  rewrite Hp.
  assert (Hb : int2_body (bits_string (b :: bs))
               = int2_digits false 0 (bits_string (b :: bs)))
    by (destruct b; reflexivity).
  rewrite Hb, H. reflexivity.
Qed.

Lemma bits_value_range (bs : list bool) :
  forall acc : Z,
    0 <= acc ->
    acc * 2 ^ Z.of_nat (length bs) <= bits_value acc bs
    < (acc + 1) * 2 ^ Z.of_nat (length bs).
Proof.
  induction bs as [| b bs IH]; intros acc Hacc.
  - simpl. lia.
  - change (bits_value acc (b :: bs))
      with (bits_value (2 * acc + (if b then 1 else 0)) bs).
    replace (Z.of_nat (length (b :: bs))) with (Z.succ (Z.of_nat (length bs)))
      by (simpl; lia).
    rewrite Z.pow_succ_r by lia.
    pose proof (Z.pow_pos_nonneg 2 (Z.of_nat (length bs)) ltac:(lia) ltac:(lia)).
    destruct b.
    + specialize (IH (2 * acc + 1) ltac:(lia)). nia.
    + specialize (IH (2 * acc + 0) ltac:(lia)). nia.
Qed.

(** X14.  A line that holds binary digits, with white space around them or
    not and with a comment after them or not, gives the number the digits
    write in base 2.  The digits are not counted: nine or more of them give
    a value above 255, and it is stored as it is. *)
Theorem binary_line_value (w1 w2 tail : string) (bs : list bool) :
  all_space w1 = true ->
  all_space w2 = true ->
  bs <> [] ->
  tail = EmptyString \/ (exists c, tail = String "#" c) ->
  parse_line (w1 ++ bits_string bs ++ w2 ++ tail) = Done (Some (bits_value 0 bs))
  /\ 0 <= bits_value 0 bs < 2 ^ Z.of_nat (length bs).
Proof.
  intros H1 H2 Hbs Htail. split.
  - unfold parse_line.
    rewrite (before_hash_app_space _ _ H1), before_hash_app_bits,
      (before_hash_app_space _ _ H2).
    assert (Ht : before_hash tail = EmptyString)
      by (destruct Htail as [-> | [c ->]]; reflexivity).
    rewrite Ht, string_app_nil_r.
    unfold strip. rewrite (lstrip_app_space _ _ H1).
    assert (Hl : lstrip (bits_string bs ++ w2) = (bits_string bs ++ w2)%string)
      by (destruct bs as [| [] bs]; [congruence | reflexivity ..]).
    rewrite Hl, (rstrip_app_space _ _ H2), rstrip_bits.
    rewrite (int2_bits bs Hbs).
    destruct bs as [| b bs]; [congruence | reflexivity].
  - pose proof (bits_value_range bs 0 ltac:(lia)). lia.
Qed.

Lemma binary_line_value_witness :
  parse_line (" " ++ bits_string [true; false; false; false; false; false; true;
                                  false; true] ++ "  " ++ "# LDI")
  = Done (Some (bits_value 0 [true; false; false; false; false; false; true;
                              false; true]))
  /\ 0 <= bits_value 0 [true; false; false; false; false; false; true; false; true]
     < 2 ^ Z.of_nat (length [true; false; false; false; false; false; true;
                             false; true]).
Proof.
  apply (binary_line_value " " "  " "# LDI").
  - reflexivity.
  - reflexivity.
  - discriminate.
  - right. exists " LDI"%string. reflexivity.
Defined.

Example nine_digit_line : parse_line "100000101" = Done (Some 261).
Proof. reflexivity. Qed.

(** *** Lines that are not numbers *)

Lemma bit_of_int2_char (c : ascii) (d : Z) :
  bit_of c = Some d -> int2_char c = true.
Proof.
  unfold bit_of, int2_char.
  destruct (c =? "0")%char; [reflexivity |].
  destruct (c =? "1")%char; [reflexivity | discriminate].
Qed.

Lemma int2_digits_stray (t : string) :
  forall (prev : bool) (acc : Z),
    has_char (fun c => negb (int2_char c)) t = true ->
    int2_digits prev acc t = None.
Proof.
  induction t as [| c t IH]; simpl; intros prev acc H; [discriminate |].
  destruct (Ascii.eqb_spec c "_") as [-> | Hc].
  - simpl in H. destruct prev; [reflexivity | apply IH; exact H].
  - destruct (bit_of c) as [d |] eqn:Eb; [| reflexivity].
    rewrite (bit_of_int2_char c d Eb) in H. apply IH. exact H.
Qed.

Lemma int2_body_stray (t : string) :
  has_char (fun c => negb (int2_char c)) t = true -> int2_body t = None.
Proof.
  intros H. destruct t as [| c t]; [reflexivity |]. unfold int2_body.
  destruct (c =? "_")%char; [reflexivity |].
  apply int2_digits_stray. exact H.
Qed.

Lemma int2_prefix_stray (t : string) :
  has_char (fun c => negb (int2_char c)) t = true ->
  has_char (fun c => negb (int2_char c)) (int2_prefix t) = true.
Proof.
  intros H. destruct t as [| c0 [| c1 rest]]; try exact H.
  unfold int2_prefix.
  destruct (Ascii.eqb_spec c0 "0") as [-> | _]; [| exact H].
  destruct (Ascii.eqb_spec c1 "b") as [-> | _];
    [| destruct (Ascii.eqb_spec c1 "B") as [-> | _]; [| exact H]];
    simpl in *;
    (destruct rest as [| c2 rest']; [exact H |]);
    (destruct (Ascii.eqb_spec c2 "_") as [-> | _]; [exact H | exact H]).
Qed.

Lemma int2_stray (val : string) :
  has_char (fun c => negb (int2_char c)) val = true -> int2 val = None.
Proof.
  intros H. unfold int2.
  assert (Hs : has_char (fun c => negb (int2_char c)) (snd (int2_sign val)) = true).
  { destruct val as [| c rest]; [exact H |]. unfold int2_sign.
    destruct (Ascii.eqb_spec c "+") as [-> | _]; [exact H |].
    destruct (Ascii.eqb_spec c "-") as [-> | _]; [exact H | exact H]. }
  destruct (int2_sign val) as [negative t]. simpl in Hs.
  rewrite (int2_body_stray _ (int2_prefix_stray _ Hs)). reflexivity.
Qed.

(** X15.  For the lines of this development, whose characters are code
    points below 256 (a program file in ASCII or Latin-1): a line is an
    instruction byte or an error, never a mnemonic.  When what is left of
    such a line, once its comment and the white space around it are taken
    off, has a character other than [0], [1], [_], [+], [-], [b] and [B],
    reading the line raises [ValueError], and [load] stops when it comes to
    that line, whatever follows it.  (Above code point 255, which these
    lines do not have, Python's [int] also reads the decimal digits of
    other scripts.) *)
Theorem stray_character_raises (line : string) :
  has_char (fun c => negb (int2_char c)) (strip (before_hash line)) = true ->
  parse_line line = Throw ValueError /\
  forall (address : Z) (rest : list string) (s : cpu),
    load_lines address (line :: rest) s = Throw ValueError.
Proof.
  intros H.
  assert (Hp : parse_line line = Throw ValueError).
  { unfold parse_line. rewrite (int2_stray _ H).
    destruct (strip (before_hash line)); [discriminate | reflexivity]. }
  split; [exact Hp |].
  intros address rest s. simpl. rewrite Hp. reflexivity.
Qed.

Lemma stray_character_raises_witness :
  parse_line "LDI R0,8" = Throw ValueError /\
  forall (address : Z) (rest : list string) (s : cpu),
    load_lines address ("LDI R0,8"%string :: rest) s = Throw ValueError.
Proof. apply (stray_character_raises "LDI R0,8"). reflexivity. Defined.

Example decimal_and_hexadecimal_bytes_raise :
  parse_line "130" = Throw ValueError /\ parse_line "0x82" = Throw ValueError
  /\ parse_line "1000 0010" = Throw ValueError
  /\ parse_line "-0b1000_0010" = Done (Some (-130)).
Proof. repeat apply conj; reflexivity. Qed.

(** * The trace *)

(** X16.  [trace] cannot be used as it is: its format has four conversions
    and is applied to five values, so each call raises [TypeError] and
    prints nothing, unless one of the three memory reads that come first
    raises [IndexError], which happens with the program counter outside
    -256..253. *)
Theorem trace_always_raises (s : cpu) :
  wf s ->
  trace s
  = Throw (if (-256 <=? pc s) && (pc s <=? 253) then TypeError else Cpu IndexError).
Proof.
  intros [Hm _]. unfold trace, ram_read.
  destruct (Z.leb_spec (-256) (pc s)) as [Hlo | Hlo];
    [destruct (Z.leb_spec (pc s) 253) as [Hhi | Hhi] |]; simpl.
  - destruct (getitem_inside (ram s) (pc s)) as (x & -> & _); [lia |].
    destruct (getitem_inside (ram s) (pc s + 1)) as (y & -> & _); [lia |].
    destruct (getitem_inside (ram s) (pc s + 2)) as (z & -> & _); [lia |].
    reflexivity.
  - destruct (getitem (ram s) (pc s)) as [x | e] eqn:E0; simpl.
    2: { rewrite (getitem_raises_IndexError _ _ _ E0). reflexivity. }
    destruct (getitem (ram s) (pc s + 1)) as [y | e] eqn:E1; simpl.
    2: { rewrite (getitem_raises_IndexError _ _ _ E1). reflexivity. }
    destruct (getitem (ram s) (pc s + 2)) as [z | e] eqn:E2; simpl.
    2: { rewrite (getitem_raises_IndexError _ _ _ E2). reflexivity. }
    apply getitem_Ok_inv in E0 as [H0 _], E1 as [H1 _], E2 as [H2 _]. lia.
  - rewrite getitem_outside by lia. reflexivity.
Qed.

Lemma trace_always_raises_witness :
  trace CPU_init
  = Throw (if (-256 <=? pc CPU_init) && (pc CPU_init <=? 253)
           then TypeError else Cpu IndexError).
Proof. apply (trace_always_raises CPU_init). split; reflexivity. Defined.

Example trace_format_with_four_values :
  py_format trace_format [0; 0; LDI; 255] = Done "TRACE: 00 | 00 82 FF |"%string.
Proof. reflexivity. Qed.
